(** * build_llms_txt: a shallow embedding of bin/build_llms_txt.py

    The script fetches the specification page of the Open Responses site,
    extracts its text, harvests "key information" with regular expressions,
    assembles an llms.txt document and validates it.

    Text is modelled as [string] (a sequence of 8-bit characters).  The
    character classes [\s], [\w], [str.strip], [str.lower] and
    [str.splitlines] are those of Python on ASCII text; characters above 127
    are in no class and have no case.  Python's [re] is modelled by a
    backtracking matcher with the priorities of the real engine (leftmost
    match, greedy and lazy repetition, ordered alternation, capture groups,
    lookahead, [\Z], IGNORECASE).  The network, the HTML parser and the file
    system are the environment: [requests.get], [BeautifulSoup] and the
    opening of a file for writing are Section variables; [requests.get]
    and the opening of a file may raise any exception, the parser is taken
    to give a page for every text, and printing and the reading of a file
    that was just written are taken to succeed.  Files are a finite map
    from paths to contents. *)

From stdpp Require Import gmap strings list.
From Stdlib Require Import Ascii String List Arith Lia Bool.
From Stdlib Require Import Numbers.DecimalString.
Import ListNotations.

Local Open Scope string_scope.
Local Open Scope list_scope.
Local Open Scope nat_scope.

(** ** Characters and strings as Python sees them *)

Module Text.

Definition LF : ascii := "010"%char.
Definition CR : ascii := "013"%char.
Definition nl : string := String LF EmptyString.

(** [str.isspace] on ASCII: TAB, LF, VT, FF, CR, FS, GS, RS, US, SPACE. *)
Definition is_space (c : ascii) : bool :=
  let n := nat_of_ascii c in
  ((9 <=? n) && (n <=? 13)) || ((28 <=? n) && (n <=? 32)).

(** [\w] on ASCII: letters, digits and the underscore. *)
Definition is_word (c : ascii) : bool :=
  let n := nat_of_ascii c in
  ((48 <=? n) && (n <=? 57)) || ((65 <=? n) && (n <=? 90))
  || ((97 <=? n) && (n <=? 122)) || (n =? 95).

Definition lower_char (c : ascii) : ascii :=
  let n := nat_of_ascii c in
  if (65 <=? n) && (n <=? 90) then ascii_of_nat (n + 32) else c.

Fixpoint lower (s : string) : string :=
  match s with
  | EmptyString => EmptyString
  | String c s' => String (lower_char c) (lower s')
  end.

Fixpoint lstrip (s : string) : string :=
  match s with
  | EmptyString => EmptyString
  | String c s' => if is_space c then lstrip s' else s
  end.

Fixpoint rstrip (s : string) : string :=
  match s with
  | EmptyString => EmptyString
  | String c s' =>
      match rstrip s' with
      | EmptyString => if is_space c then EmptyString else String c EmptyString
      | r => String c r
      end
  end.

(** [str.strip()] *)
Definition strip (s : string) : string := rstrip (lstrip s).

(** [s.startswith(p)] *)
Fixpoint startswith (p s : string) : bool :=
  match p with
  | EmptyString => true
  | String a p' =>
      match s with
      | String b s' => Ascii.eqb a b && startswith p' s'
      | EmptyString => false
      end
  end.

(** [needle in hay] *)
Fixpoint contains (needle hay : string) : bool :=
  startswith needle hay
  || match hay with
     | EmptyString => false
     | String _ hay' => contains needle hay'
     end.

(** [sep.join(l)] *)
Fixpoint join (sep : string) (l : list string) : string :=
  match l with
  | [] => EmptyString
  | [x] => x
  | x :: rest => x +:+ sep +:+ join sep rest
  end.

Definition cons_head (c : ascii) (l : list string) : list string :=
  match l with
  | h :: t => String c h :: t
  | [] => [String c EmptyString]
  end.

(** [s.split(c)] for a one-character separator. *)
Fixpoint split_char (c : ascii) (s : string) : list string :=
  match s with
  | EmptyString => [EmptyString]
  | String x s' =>
      if Ascii.eqb x c then EmptyString :: split_char c s'
      else cons_head x (split_char c s')
  end.

(** [s.split("  ")]: the separator is two spaces, taken left to right. *)
Fixpoint split_two_spaces (s : string) : list string :=
  match s with
  | EmptyString => [EmptyString]
  | String x s' =>
      match s' with
      | String y s'' =>
          if Ascii.eqb x " " && Ascii.eqb y " "
          then EmptyString :: split_two_spaces s''
          else cons_head x (split_two_spaces s')
      | EmptyString => [String x EmptyString]
      end
  end.

(** Line boundaries of [str.splitlines] on ASCII: LF, VT, FF, CR, FS, GS, RS
    (and CR LF taken as one). *)
Definition is_linebreak (c : ascii) : bool :=
  let n := nat_of_ascii c in
  ((10 <=? n) && (n <=? 13)) || ((28 <=? n) && (n <=? 30)).

(** [s.splitlines()]: no empty last line after a final boundary. *)
Fixpoint splitlines (s : string) : list string :=
  match s with
  | EmptyString => []
  | String x s' =>
      if is_linebreak x then
        match s' with
        | String y s'' =>
            if Ascii.eqb x CR && Ascii.eqb y LF
            then EmptyString :: splitlines s''
            else EmptyString :: splitlines s'
        | EmptyString => [EmptyString]
        end
      else cons_head x (splitlines s')
  end.

(** [str(n)] for a non-negative integer. *)
Definition str_of_nat (n : nat) : string :=
  NilZero.string_of_uint (Nat.to_uint n).

(** [str(b)] *)
Definition str_of_bool (b : bool) : string :=
  if b then "True" else "False".

End Text.
Import Text.

(** ** Python's [re], as far as the script's patterns use it *)

Module Re.

(** Members of a character set. *)
Inductive atom :=
| ALit (c : ascii)      (* a literal character *)
| AWord                 (* \w *)
| ASpace.               (* \s *)

(** What one position of a pattern accepts. *)
Inductive cclass :=
| COne (a : atom)
| CDot                         (* . : anything but a newline *)
| CAnyOf (l : list atom)       (* [...] *)
| CNoneOf (l : list atom).     (* [^...] *)

(** The repeated item of every pattern of the script is one character
    class, so repetition is over a [cclass]. *)
Inductive regex :=
| Eps
| Chr (c : cclass)
| Seq (r1 r2 : regex)
| Alt (r1 r2 : regex)                        (* r1|r2, r1 tried first *)
| Rep (greedy : bool) (min : nat) (c : cclass) (* c*, c+ and c*?       *)
| Group (n : nat) (r : regex)                (* capture group number n *)
| Look (r : regex)                           (* (?=r)                  *)
| EndZ.                                      (* \Z                     *)

Definition captures := list (nat * string).

Fixpoint group (n : nat) (caps : captures) : option string :=
  match caps with
  | [] => None
  | (m, s) :: rest => if m =? n then Some s else group n rest
  end.

(** [ic] is the IGNORECASE flag. *)
Definition atom_match (ic : bool) (a : atom) (x : ascii) : bool :=
  match a with
  | ALit c => if ic then Ascii.eqb (lower_char c) (lower_char x)
              else Ascii.eqb c x
  | AWord => is_word x
  | ASpace => is_space x
  end.

Definition cmatch (ic : bool) (c : cclass) (x : ascii) : bool :=
  match c with
  | COne a => atom_match ic a x
  | CDot => negb (Ascii.eqb x LF)
  | CAnyOf l => existsb (fun a => atom_match ic a x) l
  | CNoneOf l => negb (existsb (fun a => atom_match ic a x) l)
  end.

(** The first [String.length s - String.length rest] characters of [s]:
    what was consumed between [s] and its suffix [rest]. *)
Definition consumed (s rest : string) : string :=
  substring 0 (String.length s - String.length rest) s.

Section Backtrack.
Context {T : Type}.

(** Greedy repetition: take a character when possible, give it back when
    the rest of the pattern fails. *)
Fixpoint rep_greedy (ok : ascii -> bool) (min : nat) (s : string)
         (k : string -> option T) : option T :=
  match s with
  | String x s' =>
      if ok x then
        match rep_greedy ok (pred min) s' k with
        | Some r => Some r
        | None => match min with 0 => k s | S _ => None end
        end
      else match min with 0 => k s | S _ => None end
  | EmptyString => match min with 0 => k s | S _ => None end
  end.

(** Lazy repetition: try the rest of the pattern first. *)
Fixpoint rep_lazy (ok : ascii -> bool) (min : nat) (s : string)
         (k : string -> option T) : option T :=
  let more :=
    match s with
    | String x s' => if ok x then rep_lazy ok (pred min) s' k else None
    | EmptyString => None
    end in
  match min with
  | 0 => match k s with Some r => Some r | None => more end
  | S _ => more
  end.
End Backtrack.

(** The matcher, in continuation-passing style: [k] is the rest of the
    pattern; [None] makes the caller try its next alternative. *)
Fixpoint rmatch (ic : bool) (r : regex) (s : string) (caps : captures)
         (k : string -> captures -> option (string * captures))
  : option (string * captures) :=
  match r with
  | Eps => k s caps
  | Chr c =>
      match s with
      | String x s' => if cmatch ic c x then k s' caps else None
      | EmptyString => None
      end
  | Seq r1 r2 => rmatch ic r1 s caps (fun s1 c1 => rmatch ic r2 s1 c1 k)
  | Alt r1 r2 =>
      match rmatch ic r1 s caps k with
      | Some res => Some res
      | None => rmatch ic r2 s caps k
      end
  | Rep greedy min c =>
      (if greedy then rep_greedy else rep_lazy)
        (cmatch ic c) min s (fun s1 => k s1 caps)
  | Group n r1 =>
      rmatch ic r1 s caps (fun s1 c1 => k s1 ((n, consumed s s1) :: c1))
  | Look r1 =>
      match rmatch ic r1 s caps (fun s1 c1 => Some (s1, c1)) with
      | Some (_, c1) => k s c1
      | None => None
      end
  | EndZ =>
      match s with
      | EmptyString => k s caps
      | String _ _ => None
      end
  end.

(** A match of [r] at the start of [s]: its length and its groups.  With
    [must_advance] an empty match is refused (the engine's flag of the same
    name, set after an empty match). *)
Definition match_at (ic : bool) (r : regex) (must_advance : bool) (s : string)
  : option (nat * captures) :=
  match rmatch ic r s []
          (fun s1 c1 =>
             if must_advance && (String.length s1 =? String.length s)
             then None else Some (s1, c1)) with
  | Some (s1, c1) => Some (String.length s - String.length s1, c1)
  | None => None
  end.

(** A scan of the subject cuts it into matches and the characters between
    them. *)
Inductive piece :=
| Gap (c : ascii)
| Hit (text : string) (caps : captures).

(** The scan of [finditer], [findall] and [sub]: the leftmost match, then
    the next one after its end.  [skip] counts the characters of the current
    match that are still to be passed. *)
Fixpoint scan (ic : bool) (r : regex) (skip : nat) (s : string) : list piece :=
  match skip with
  | S n =>
      match s with
      | String _ s' => scan ic r n s'
      | EmptyString => []
      end
  | 0 =>
      match match_at ic r false s with
      | Some (S n, caps) =>
          Hit (substring 0 (S n) s) caps ::
          match s with
          | String _ s' => scan ic r n s'
          | EmptyString => []
          end
      | Some (0, caps) =>
          Hit EmptyString caps ::
          match s with
          | String x s' =>
              match match_at ic r true s with
              | Some (S n, caps') =>
                  Hit (substring 0 (S n) s) caps' :: scan ic r n s'
              | _ => Gap x :: scan ic r 0 s'
              end
          | EmptyString => []
          end
      | None =>
          match s with
          | String x s' => Gap x :: scan ic r 0 s'
          | EmptyString => []
          end
      end
  end.

(** Replacement templates: literal text and group references [\n]. *)
Inductive repl_item :=
| RLit (s : string)
| RGroup (n : nat).

Definition expand (tpl : list repl_item) (caps : captures) : string :=
  fold_right
    (fun it acc =>
       match it with
       | RLit s => s +:+ acc
       | RGroup n => default EmptyString (group n caps) +:+ acc
       end) EmptyString tpl.

Fixpoint render (tpl : list repl_item) (ps : list piece) : string :=
  match ps with
  | [] => EmptyString
  | Gap c :: rest => String c (render tpl rest)
  | Hit _ caps :: rest => expand tpl caps +:+ render tpl rest
  end.

(** [re.sub(r, tpl, s, flags)] *)
Definition sub (ic : bool) (r : regex) (tpl : list repl_item) (s : string)
  : string :=
  render tpl (scan ic r 0 s).

(** The number of capture groups of a pattern. *)
Fixpoint ngroups (r : regex) : nat :=
  match r with
  | Seq r1 r2 | Alt r1 r2 => ngroups r1 + ngroups r2
  | Group _ r1 => S (ngroups r1)
  | Look r1 => ngroups r1
  | _ => 0
  end.

(** An item of [re.findall]'s result: a string when the pattern has at most
    one group, a tuple of the groups otherwise. *)
Inductive found :=
| FStr (s : string)
| FTuple (l : list string).

Definition found_of (r : regex) (text : string) (caps : captures) : found :=
  match ngroups r with
  | 0 => FStr text
  | 1 => FStr (default EmptyString (group 1 caps))
  | n => FTuple (map (fun i => default EmptyString (group i caps)) (seq 1 n))
  end.

Fixpoint hits (r : regex) (ps : list piece) : list found :=
  match ps with
  | [] => []
  | Gap _ :: rest => hits r rest
  | Hit text caps :: rest => found_of r text caps :: hits r rest
  end.

(** [re.findall(r, s, flags)] *)
Definition findall (ic : bool) (r : regex) (s : string) : list found :=
  hits r (scan ic r 0 s).

(** Pattern syntax. *)
Fixpoint lit (s : string) : regex :=
  match s with
  | EmptyString => Eps
  | String c EmptyString => Chr (COne (ALit c))
  | String c s' => Seq (Chr (COne (ALit c))) (lit s')
  end.

Fixpoint seqs (l : list regex) : regex :=
  match l with
  | [] => Eps
  | [r] => r
  | r :: rest => Seq r (seqs rest)
  end.

Fixpoint alts (l : list regex) : regex :=
  match l with
  | [] => Eps
  | [r] => r
  | r :: rest => Alt r (alts rest)
  end.

Definition star (c : cclass) : regex := Rep true 0 c.
Definition plus (c : cclass) : regex := Rep true 1 c.
Definition star_lazy (c : cclass) : regex := Rep false 0 c.
Definition space : cclass := COne ASpace.
Definition word : cclass := COne AWord.
Definition none_of (s : string) : cclass :=
  CNoneOf (map ALit (list_ascii_of_string s)).

End Re.
Import Re.

(** ** The script *)

(** Patterns are quoted in verbose layout: the blanks between their parts
    are not part of them.

    [\n \s* \n \s* \n] *)
Definition blank_lines_re : regex :=
  seqs [lit nl; star space; lit nl; star space; lit nl].

(** [\[ ( [^\]]+ ) \] \( [^)]+ \)] *)
Definition link_re : regex :=
  seqs [lit "["; Group 1 (plus (none_of "]")); lit "]("; plus (none_of ")");
        lit ")"].

(** [! \[ ( [^\]]* ) \] \( [^)]+ \)] *)
Definition image_re : regex :=
  seqs [lit "!["; Group 1 (star (none_of "]")); lit "]("; plus (none_of ")");
        lit ")"].

(** [< [^>]+ >] *)
Definition tag_re : regex := seqs [lit "<"; plus (none_of ">"); lit ">"].

Definition clean_markdown_content (content : string) : string :=
  (* Remove excessive blank lines *)
  let content := sub false blank_lines_re [RLit (nl +:+ nl)] content in
  (* Remove markdown links, keep text: [text](url) -> text *)
  let content := sub false link_re [RGroup 1] content in
  (* Remove image references *)
  let content := sub false image_re [] content in
  (* Remove HTML tags that might remain *)
  let content := sub false tag_re [] content in
  strip content.

(** The Key Info Record: the dict [key_info] with its five fixed keys. *)
Record key_info := {
  core_concepts : list string;
  endpoints : list string;
  parameters : list string;
  response_fields : list string;
  streaming_events : list string
}.

(** [x in l] on a list of strings. *)
Definition mem (x : string) (l : list string) : bool :=
  existsb (String.eqb x) l.

(** Truthiness of a string. *)
Definition nonempty (s : string) : bool :=
  match s with EmptyString => false | String _ _ => true end.

(** [if x not in l: l.append(x)] *)
Definition append_new (l : list string) (x : string) : list string :=
  if mem x l then l else l ++ [x].

(** The body of every harvesting loop: a match that passes the loop's tests
    gives a candidate, which is appended unless it is already in the list. *)
Definition add_candidate (candidate : found -> option string)
           (acc : list string) (m : found) : list string :=
  match candidate m with
  | Some x => append_new acc x
  | None => acc
  end.

(** One concept pattern: the bold marker, then lazily anything but a full
    stop, up to the next bold marker, the next heading or the end:
    [( \*\*Items\*\* [^\.]*? ) (?= \n\*\* | \n## | \Z )] *)
Definition bold_concept_re (name : string) : regex :=
  seqs [Group 1 (seqs [lit ("**" +:+ name +:+ "**"); star_lazy (none_of ".")]);
        Look (alts [lit (nl +:+ "**"); lit (nl +:+ "##"); EndZ])].

(** [a.*?b] *)
Definition loose_re (a b : string) : regex :=
  seqs [lit a; star_lazy CDot; lit b].

Definition concepts_patterns : list regex :=
  [ bold_concept_re "Items";
    bold_concept_re "Agentic Loop";
    bold_concept_re "Semantic Streaming";
    bold_concept_re "State Machines";
    bold_concept_re "Multi-provider";
    bold_concept_re "Items → Items";
    seqs [lit "Items"; star_lazy CDot; lit "atomic"; star_lazy CDot; lit "unit"];
    loose_re "Agentic" "loop";
    loose_re "Semantic" "streaming";
    loose_re "State" "machines";
    loose_re "Multi" "provider" ].

(** [\s+] *)
Definition spaces_re : regex := plus space.

(** [match[0] if match else ''] for a tuple, the match itself otherwise. *)
Definition first_of (m : found) : string :=
  match m with
  | FStr s => s
  | FTuple l => hd EmptyString l
  end.

(** What a concept match becomes when it is kept. *)
Definition concept_candidate (m : found) : option string :=
  let s := first_of m in
  if nonempty (strip s) then
    let clean_match := sub false spaces_re [RLit " "] (strip s) in
    if 10 <? String.length clean_match then Some clean_match else None
  else None.

Definition add_concept : list string -> found -> list string :=
  add_candidate concept_candidate.

(** [( POST|GET|PUT|DELETE ) \s+ ( / [\w\/\-]+ )] *)
Definition endpoint_re : regex :=
  seqs [Group 1 (alts [lit "POST"; lit "GET"; lit "PUT"; lit "DELETE"]);
        plus space;
        Group 2 (seqs [lit "/"; plus (CAnyOf [AWord; ALit "/"; ALit "-"])])].

(** [for method, path in endpoint_matches]: the pattern has two groups, so
    every item is a pair. *)
Definition endpoint_candidate (m : found) : option string :=
  match m with
  | FTuple [method; path] => Some (method +:+ " " +:+ path)
  | _ => None
  end.

Definition add_endpoint : list string -> found -> list string :=
  add_candidate endpoint_candidate.

Definition backquoted_word : list regex :=
  [lit "`"; Group 1 (plus word); lit "`"].

(** [word \s+ \( ty \)] with the word in group [n]. *)
Definition typed_word_re (n : nat) (ty : string) : regex :=
  seqs [Group n (plus word); plus space; lit ("(" +:+ ty +:+ ")")].

Definition param_patterns : list regex :=
  [ (* `(\w+)` \s+ \( [^)]* (?:string|number|boolean|integer) *)
    seqs (backquoted_word ++
          [plus space; lit "("; star (none_of ")");
           alts [lit "string"; lit "number"; lit "boolean"; lit "integer"]]);
    (* `(\w+)` \s+ .*? (?:parameter|field|argument) *)
    seqs (backquoted_word ++
          [plus space; star_lazy CDot;
           alts [lit "parameter"; lit "field"; lit "argument"]]);
    (* `(\w+)` .*? (?:input|request|model|tool|stream|temperature|top_p|
                      truncation|service_tier) *)
    seqs (backquoted_word ++
          [star_lazy CDot;
           alts [lit "input"; lit "request"; lit "model"; lit "tool";
                 lit "stream"; lit "temperature"; lit "top_p";
                 lit "truncation"; lit "service_tier"]]);
    (* (\w+)\s+\(string\) | (\w+)\s+\(number\) | (\w+)\s+\(boolean\)
       | (\w+)\s+\(integer\) *)
    alts [typed_word_re 1 "string"; typed_word_re 2 "number";
          typed_word_re 3 "boolean"; typed_word_re 4 "integer"] ].

Definition param_stop_words : list string :=
  ["the"; "and"; "for"; "with"; "to"; "of"; "in"; "on"; "at"; "by"; "is";
   "are"; "was"; "were"; "be"; "been"; "being"; "have"; "has"; "had"; "do";
   "does"; "did"; "will"; "would"; "could"; "should"; "type"; "id"; "name";
   "text"; "url"; "data"; "model"; "input"; "tools"; "tool"; "stream";
   "temperature"; "top_p"].

(** [next((m for m in match_group if m), '')] *)
Fixpoint first_nonempty (l : list string) : string :=
  match l with
  | [] => EmptyString
  | x :: rest => if nonempty x then x else first_nonempty rest
  end.

Definition param_candidate (match_group : found) : option string :=
  let m := match match_group with
           | FTuple l => first_nonempty l
           | FStr s => s
           end in
  if nonempty m && (2 <? String.length m)
     && negb (mem (lower m) param_stop_words)
  then Some m else None.

Definition add_param : list string -> found -> list string :=
  add_candidate param_candidate.

Definition field_patterns : list regex :=
  [ (* `(\w+)` \s+ .*? (?:response|output|status|model|usage|error) *)
    seqs (backquoted_word ++
          [plus space; star_lazy CDot;
           alts [lit "response"; lit "output"; lit "status"; lit "model";
                 lit "usage"; lit "error"]]);
    (* `(\w+)` \s+ .*? (?:field|property|attribute) *)
    seqs (backquoted_word ++
          [plus space; star_lazy CDot;
           alts [lit "field"; lit "property"; lit "attribute"]]);
    (* (\w+) \s+ .*? (?:response|output|status|model|usage|error) *)
    seqs [Group 1 (plus word); plus space; star_lazy CDot;
          alts [lit "response"; lit "output"; lit "status"; lit "model";
                lit "usage"; lit "error"]] ].

(** Every field pattern has one group, so every item is a string. *)
Definition field_candidate (m : found) : option string :=
  match m with
  | FStr s => if nonempty s && (2 <? String.length s) then Some s else None
  | FTuple _ => None
  end.

Definition add_field : list string -> found -> list string :=
  add_candidate field_candidate.

(** [`( response\. [\w_]+ )`] *)
Definition event_pattern : regex :=
  seqs [lit "`";
        Group 1 (seqs [lit "response."; plus (CAnyOf [AWord; ALit "_"])]);
        lit "`"].

Definition event_candidate (m : found) : option string :=
  match m with
  | FStr s => Some s
  | FTuple _ => None
  end.

Definition add_event : list string -> found -> list string :=
  add_candidate event_candidate.

(** [for pattern in patterns: for match in re.findall(pattern, content,
    flags): ...], the list under construction threaded through. *)
Definition harvest (add : list string -> found -> list string) (ic : bool)
           (patterns : list regex) (content : string) : list string :=
  fold_left
    (fun acc pattern => fold_left add (findall ic pattern content) acc)
    patterns [].

Definition extract_key_info_from_content (content : string) : key_info :=
  let core_concepts := harvest add_concept true concepts_patterns content in
  let endpoints := harvest add_endpoint false [endpoint_re] content in
  let parameters := harvest add_param true param_patterns content in
  let response_fields := harvest add_field true field_patterns content in
  let streaming_events := harvest add_event false [event_pattern] content in
  (* Deduplicate lists and limit to reasonable sizes *)
  {| core_concepts := firstn 5 core_concepts;
     endpoints := firstn 10 endpoints;
     parameters := firstn 20 parameters;
     response_fields := firstn 20 response_fields;
     streaming_events := firstn 15 streaming_events |}.

(** *** The parsed page

    What [BeautifulSoup(html, 'html.parser')] builds: a tree of tags and
    strings.  A tag's attributes are a dict; the value of [class] is the
    list of its blank-separated tokens, other values are strings. *)

Inductive attr_value :=
| AStr (s : string)
| AList (l : list string).

#[local] Set Warnings "-register-all".
Inductive node :=
| NavigableString (s : string)     (* text *)
| Comment (s : string)             (* comments, doctypes and the like *)
| Tag (name : string) (attrs : gmap string attr_value) (contents : list node).

Definition is_named (names : list string) (n : node) : bool :=
  match n with
  | Tag name _ _ => mem name names
  | _ => false
  end.

(** [for t in soup(names): t.decompose()] *)
Fixpoint decompose_all (names : list string) (n : node) : node :=
  match n with
  | Tag name attrs contents =>
      Tag name attrs
        ((fix go (l : list node) : list node :=
            match l with
            | [] => []
            | c :: rest =>
                if is_named names c then go rest
                else decompose_all names c :: go rest
            end) contents)
  | _ => n
  end.

(** [tag.descendants], in document order. *)
Fixpoint descendants (n : node) : list node :=
  match n with
  | Tag _ _ contents => flat_map (fun c => c :: descendants c) contents
  | _ => []
  end.

(** How the library matches an attribute value against a function: a list
    value matches when one of its items does, or when the items joined by
    blanks do. *)
Definition attr_matches (f : option string -> bool) (v : option attr_value)
  : bool :=
  match v with
  | None => f None
  | Some (AStr s) => f (Some s)
  | Some (AList l) =>
      existsb (fun item => f (Some item)) l || f (Some (join " " l))
  end.

(** [tag.find_all(names, attrs={attr: f})] *)
Definition find_all (names : list string) (attr : string)
           (f : option string -> bool) (n : node) : list node :=
  filter
    (fun d =>
       match d with
       | Tag name attrs _ => mem name names && attr_matches f (attrs !! attr)
       | _ => false
       end)
    (descendants n).

(** [soup.body]: the first tag named body, if any. *)
Definition body (soup : node) : option node :=
  head (filter (is_named ["body"]) (descendants soup)).

Definition own_string (n : node) : list string :=
  match n with
  | NavigableString s => [s]
  | _ => []
  end.

(** [tag.get_text(separator)] *)
Definition get_text (separator : string) (n : node) : string :=
  join separator (flat_map own_string (descendants n)).

(** [lambda x: x and ('content' in x or 'main' in x or 'doc' in x or
    'page' in x)] *)
Definition content_class (x : option string) : bool :=
  match x with
  | None => false
  | Some x =>
      nonempty x
      && (contains "content" x || contains "main" x || contains "doc" x
          || contains "page" x)
  end.

(** The environment of a run: the network, the HTML parser, the files and
    the console. *)

(** What [requests.get] hands back. *)
Record response := {
  status_code : nat;
  reason : string;
  url : string;
  text : string
}.

(** The exceptions of [requests]; all of them are subclasses of
    [requests.RequestException]. *)
Inductive request_error :=
| HTTPError
| ConnectionError
| Timeout
| TooManyRedirects
| MissingSchema
| InvalidSchema
| InvalidURL
| ChunkedEncodingError
| ContentDecodingError.

(** The exceptions of a run.  [OtherException] stands for every other
    class, by its name: urllib3's LocationParseError, PermissionError and
    the like. *)
Inductive exn :=
| RequestException (kind : request_error) (msg : string)
| ValueError (msg : string)
| FileNotFoundError (path : string)
| OtherException (class message : string).

Record world := {
  files : gmap string string;
  stdout : list string
}.

Inductive result (A : Type) :=
| Ok (a : A)
| Raised (e : exn).
Arguments Ok {A} a.
Arguments Raised {A} e.

(** State and exceptions: a computation changes the world and returns or
    raises. *)
Definition M (A : Type) : Type := world -> result A * world.

Definition ret {A} (a : A) : M A := fun w => (Ok a, w).

Definition bind {A B} (m : M A) (f : A -> M B) : M B :=
  fun w =>
    match m w with
    | (Ok a, w') => f a w'
    | (Raised e, w') => (Raised e, w')
    end.

Definition raise {A} (e : exn) : M A := fun w => (Raised e, w).

(** [try: body  except requests.RequestException as e: handler] *)
Definition try_except_RequestException {A} (body : M A)
           (handler : string -> M A) : M A :=
  fun w =>
    match body w with
    | (Raised (RequestException _ msg), w') => handler msg w'
    | other => other
    end.

Notation "x <- m ;; k" := (bind m (fun x => k))
  (at level 100, m at next level, right associativity).
Notation "m ;;; k" := (bind m (fun _ => k))
  (at level 100, right associativity).

Definition print (line : string) : M unit :=
  fun w => (Ok tt, {| files := files w; stdout := stdout w ++ [line] |}).

(** Reading a text file translates CR LF and CR to LF (universal
    newlines); [pending_cr] tells that the last character was a CR. *)
Fixpoint translate_newlines (pending_cr : bool) (s : string) : string :=
  match s with
  | EmptyString => EmptyString
  | String c s' =>
      if Ascii.eqb c CR then String LF (translate_newlines true s')
      else if Ascii.eqb c LF && pending_cr then translate_newlines false s'
      else String c (translate_newlines false s')
  end.

(** [with open(path, 'r', encoding='utf-8') as f: f.read()] *)
Definition read_file (path : string) : M string :=
  fun w =>
    match files w !! path with
    | Some data => (Ok (translate_newlines false data), w)
    | None => (Raised (FileNotFoundError path), w)
    end.

(** [f.write(data)] on a file opened for writing at [path], on a system
    whose line separator is LF: the file holds [data] afterwards. *)
Definition write_file (path data : string) : M unit :=
  fun w => (Ok tt, {| files := <[path := data]> (files w); stdout := stdout w |}).

(** [response.raise_for_status()] *)
Definition raise_for_status (r : response) : M unit :=
  let code := status_code r in
  if (400 <=? code) && (code <? 500) then
    raise (RequestException HTTPError
             (str_of_nat code +:+ " Client Error: " +:+ reason r
              +:+ " for url: " +:+ url r))
  else if (500 <=? code) && (code <? 600) then
    raise (RequestException HTTPError
             (str_of_nat code +:+ " Server Error: " +:+ reason r
              +:+ " for url: " +:+ url r))
  else ret tt.

Record validation_results := {
  h1_found : bool;
  blockquote_found : bool;
  h2_count : nat;
  links_found : bool;
  valid : bool
}.

Definition has_link_chars (line : string) : bool :=
  contains "[" line && contains "]" line && contains "(" line
  && contains ")" line.

Definition check_lines (lines : list string) : validation_results :=
  let h1_found := existsb (startswith "# ") lines in
  let blockquote_found := existsb (startswith "> ") lines in
  let h2_count := List.length (filter (startswith "## ") lines) in
  let links_found := existsb has_link_chars lines in
  {| h1_found := h1_found;
     blockquote_found := blockquote_found;
     h2_count := h2_count;
     links_found := links_found;
     valid := h1_found && blockquote_found && (1 <=? h2_count) |}.

Definition report (r : validation_results) : M unit :=
  print "llmstxt.org Specification Validation:" ;;;
  print ("- H1 heading found: " +:+ str_of_bool (h1_found r)) ;;;
  print ("- Blockquote summary found: " +:+ str_of_bool (blockquote_found r)) ;;;
  print ("- H2 sections found: " +:+ str_of_nat (h2_count r)
         +:+ " (minimum 1 required)") ;;;
  print ("- Links found: " +:+ str_of_bool (links_found r)) ;;;
  print ("- Overall validity: " +:+ str_of_bool (valid r)) ;;;
  if negb (valid r) then
    print (nl +:+ "Validation errors:") ;;;
    (if negb (h1_found r)
     then print "  - Missing H1 heading (should start with '# ')"
     else ret tt) ;;;
    (if negb (blockquote_found r)
     then print "  - Missing blockquote summary (should start with '> ')"
     else ret tt) ;;;
    (if h2_count r <? 1
     then print "  - Need at least 1 H2 section (should start with '## ')"
     else ret tt)
  else ret tt.

Definition validate_llms_txt (file_path : string)
  : M (bool * validation_results) :=
  content <- read_file file_path ;;
  let lines := split_char LF content in
  let validation_results := check_lines lines in
  report validation_results ;;;
  ret (valid validation_results, validation_results).

(** *** The document *)

Definition bullet (x : string) : string := "- " +:+ x.
Definition code_bullet (x : string) : string := "- `" +:+ x +:+ "`".

Definition summary_line : string :=
  "> Open Responses is an open, vendor-neutral specification for large language model APIs that defines a shared schema, consistent streaming/events, and extensible tooling to enable interoperable LLM workflows across different providers. It standardizes LLM interfaces while maintaining flexibility for provider-specific extensions and advanced agentic capabilities.".

Definition title_lines : list string :=
  [ "# Open Responses"; ""; summary_line; "" ].

Definition is_nil {A} (l : list A) : bool :=
  match l with [] => true | _ :: _ => false end.

Definition core_concepts_section (key_info : key_info) : list string :=
  if is_nil (core_concepts key_info) then []
  else ["## Core Concepts"; ""]
       ++ map bullet (core_concepts key_info)
       ++ [""].

Definition api_section (key_info : key_info) : list string :=
  if is_nil (endpoints key_info) && is_nil (parameters key_info) then []
  else ["## API"; ""]
       ++ (if is_nil (endpoints key_info) then []
           else ["### Endpoints"]
                ++ map code_bullet (endpoints key_info)
                ++ [""])
       ++ (if is_nil (parameters key_info) then []
           else ["### Key Parameters"]
                ++ map code_bullet (parameters key_info)
                ++ [""]).

Definition streaming_events_section (key_info : key_info) : list string :=
  if is_nil (streaming_events key_info) then []
  else ["## Streaming Events"; ""]
       ++ map code_bullet (streaming_events key_info)
       ++ [""].

Definition resources_section : list string :=
  [ "## Resources";
    "";
    "- [API Reference](https://www.openresponses.org/reference): Detailed API documentation with all endpoints, parameters, and response structures";
    "- [Specification](https://www.openresponses.org/specification): Complete technical specification with detailed concepts and implementation guidelines";
    "- [Compliance](https://www.openresponses.org/compliance): Acceptance tests and validation procedures";
    "- [Governance](https://www.openresponses.org/governance): Technical charter and governance structure";
    "- [Changelog](https://www.openresponses.org/changelog): Version history and updates";
    "" ].

Definition documentation_section : list string :=
  [ "## Documentation";
    "";
    "- [Overview](https://www.openresponses.org/): Introduction to Open Responses";
    "- [Specification](https://www.openresponses.org/specification): Complete technical specification";
    "- [API Reference](https://www.openresponses.org/reference): Detailed API documentation";
    "- [Compliance](https://www.openresponses.org/compliance): Acceptance tests and validation";
    "- [Governance](https://www.openresponses.org/governance): Technical charter and governance structure";
    "- [Changelog](https://www.openresponses.org/changelog): Version history and updates";
    "" ].

Definition examples_section : list string :=
  [ "## Examples";
    "";
    "- [cURL Snippets](https://www.openresponses.org/curl_snippets/curl_snippets.yaml): YAML file with cURL examples for various API calls";
    "- [OpenAPI Specification](https://www.openresponses.org/openapi/openapi.json): Complete OpenAPI specification in JSON format";
    "" ].

Definition static_sections : list string :=
  resources_section ++ documentation_section ++ examples_section.

(** The sections written from the Key Info Record, inside [if spec_html:]. *)
Definition key_info_sections (key_info : key_info) : list string :=
  core_concepts_section key_info ++ api_section key_info
  ++ streaming_events_section key_info.

(** [llms_content] when the file is written; [None] is the run in which
    nothing was fetched, so no Key Info Record was made. *)
Definition llms_content (key_info : option key_info) : list string :=
  title_lines
  ++ match key_info with
     | Some key_info => key_info_sections key_info
     | None => []
     end
  ++ static_sections.

Definition urls : list (string * string) :=
  [ ("overview", "https://www.openresponses.org/");
    ("specification", "https://www.openresponses.org/specification");
    ("reference", "https://www.openresponses.org/reference");
    ("compliance", "https://www.openresponses.org/compliance");
    ("governance", "https://www.openresponses.org/governance");
    ("changelog", "https://www.openresponses.org/changelog") ].

(** [urls[key]] for a key of the dict. *)
Definition urls_at (key : string) : string :=
  default EmptyString (snd <$> List.find (fun kv => String.eqb (fst kv) key) urls).

Section Run.

(** [requests.get(url)]: a response, or the exception it raises: one of
    the library's own, or any other (the library lets some through, such as
    urllib3's LocationParseError for a host it cannot parse). *)
Variable requests_get : string -> response + exn.

(** [BeautifulSoup(html, 'html.parser')]: the document node. *)
Variable BeautifulSoup : string -> node.

(** [open(path, 'w', encoding='utf-8')]: the exception it raises for a
    path, if any (FileNotFoundError when the directory is missing,
    PermissionError and the like). *)
Variable open_for_writing : string -> option exn.

Definition get (url : string) : M response :=
  match requests_get url with
  | inl r => ret r
  | inr e => raise e
  end.

(** [with open(path, 'w', encoding='utf-8') as f: f.write(data)]: nothing
    is written when the file cannot be opened. *)
Definition write_text (path data : string) : M unit :=
  match open_for_writing path with
  | Some e => raise e
  | None => write_file path data
  end.

Definition fetch_web_content (url : string) : M string :=
  try_except_RequestException
    (response <- get url ;;
     raise_for_status response ;;;
     ret (text response))
    (fun e =>
       print ("Error fetching " +:+ url +:+ ": " +:+ e) ;;;
       ret EmptyString).

(** The areas the text is taken from. *)
Definition content_areas (soup : node) : list node :=
  let content_areas :=
    find_all ["main"; "article"; "div"] "class" content_class soup in
  if is_nil content_areas then
    match body soup with
    | Some b => [b]
    | None => [soup]
    end
  else content_areas.

Definition extract_mdx_like_content_from_html (html_content : string)
  : string :=
  let soup := BeautifulSoup html_content in
  (* Remove script and style elements *)
  let soup := decompose_all ["script"; "style"] soup in
  (* Try to extract main content areas *)
  let extracted_content :=
    fold_left (fun acc area => acc +:+ get_text nl area +:+ nl)
              (content_areas soup) EmptyString in
  (* Clean up text *)
  let lines := map strip (splitlines extracted_content) in
  let chunks := flat_map (fun line => map strip (split_two_spaces line)) lines in
  join nl (filter nonempty chunks).

(** The Key Info Record of a run: none when the fetch gave nothing. *)
Definition key_info_of (spec_html : string) : option key_info :=
  if nonempty spec_html then
    let spec_content := extract_mdx_like_content_from_html spec_html in
    let spec_content := clean_markdown_content spec_content in
    Some (extract_key_info_from_content spec_content)
  else None.

Definition generate_llms_txt_from_docs (docs_dir output_path : string)
  : M bool :=
  spec_html <- fetch_web_content (urls_at "specification") ;;
  let llms_content := llms_content (key_info_of spec_html) in
  (* Write to output file *)
  write_text output_path (join nl llms_content) ;;;
  print ("Generated llms.txt with " +:+ str_of_nat (List.length llms_content)
         +:+ " lines") ;;;
  (* Validate the generated file *)
  v <- validate_llms_txt output_path ;;
  let '(is_valid, validation_results) := v in
  if is_valid then
    print (nl +:+ "llms.txt file successfully validated against llmstxt.org specification!") ;;;
    print ("File location: " +:+ output_path) ;;;
    print ("Structure: 1 H1 + blockquote + "
           +:+ str_of_nat (h2_count validation_results)
           +:+ " H2 sections + links") ;;;
    ret is_valid
  else
    print (nl +:+ "llms.txt file failed validation against llmstxt.org specification!") ;;;
    raise (ValueError "Generated llms.txt file does not meet llmstxt.org specification requirements").

End Run.

(** *** Inputs and reference definitions used by the statements below *)

(** A list without its repetitions, every element at its first place. *)
Fixpoint first_seen (l : list string) : list string :=
  match l with
  | [] => []
  | x :: rest => x :: filter (fun y => negb (String.eqb x y)) (first_seen rest)
  end.

(** The candidates of a harvesting loop in the order the loop meets them:
    pattern by pattern, match by match. *)
Definition candidates (candidate : found -> option string) (ic : bool)
           (patterns : list regex) (content : string) : list string :=
  flat_map
    (fun pattern =>
       flat_map (fun m => match candidate m with Some x => [x] | None => [] end)
                (findall ic pattern content))
    patterns.

(** The cleaner with the image rule ahead of the link rule, for comparison
    with [clean_markdown_content]. *)
Definition clean_image_rule_first (content : string) : string :=
  let content := sub false blank_lines_re [RLit (nl +:+ nl)] content in
  let content := sub false image_re [] content in
  let content := sub false link_re [RGroup 1] content in
  let content := sub false tag_re [] content in
  strip content.

Definition is_hit (p : piece) : bool :=
  match p with Hit _ _ => true | Gap _ => false end.

(** [re.search(r, s) is not None] *)
Definition has_match (ic : bool) (r : regex) (s : string) : bool :=
  existsb is_hit (scan ic r 0 s).

(** No rule of the cleaner finds anything in [s]. *)
Definition rule_free (s : string) : bool :=
  negb (has_match false blank_lines_re s)
  && negb (has_match false link_re s)
  && negb (has_match false image_re s)
  && negb (has_match false tag_re s).

Definition see_docs : string :=
  "See [Docs](http://x) and ![img](http://y) here".

Definition foo_bar_foo : string :=
  "`foo` (string) ... `bar` (string) ... `foo` (string)".

(** Thirty distinct event names, each in backquotes, one per line. *)
Definition thirty_events : list string :=
  map (fun i => "response.event_" +:+ str_of_nat i) (seq 1 30).

Definition thirty_events_text : string :=
  join nl (map code_bullet thirty_events).

Definition empty_key_info : key_info :=
  {| core_concepts := []; endpoints := []; parameters := [];
     response_fields := []; streaming_events := [] |}.

Definition empty_world : world := {| files := ∅; stdout := [] |}.

(** A file with a title, a section and a link, and no summary. *)
Definition no_summary_file : string :=
  "# Title" +:+ nl +:+ nl +:+ "## Section" +:+ nl +:+ "- [a](b)" +:+ nl.

Definition no_summary_world : world :=
  {| files := {[ "llms.txt" := no_summary_file ]}; stdout := [] |}.

(** Two records that differ in response_fields only. *)
Definition sample_key_info (fields : list string) : key_info :=
  {| core_concepts := ["**Items** are the atomic unit of context"];
     endpoints := ["POST /v1/responses"];
     parameters := ["max_tokens"];
     response_fields := fields;
     streaming_events := ["response.created"] |}.

(** The value of an attribute as text: the tokens of a list value joined
    by blanks. *)
Definition attr_text (v : attr_value) : string :=
  match v with
  | AStr s => s
  | AList l => join " " l
  end.

Definition content_keywords : list string := ["content"; "main"; "doc"; "page"].

Definition main_content_div : node :=
  Tag "div" {[ "class" := AList ["main-content"; "wide"] ]}
      [NavigableString "Hello"].

(** A page with one div of class "main-content wide" in its body. *)
Definition main_content_page : node :=
  Tag "[document]" ∅
      [Tag "html" ∅
           [Tag "body" ∅ [Tag "p" ∅ [NavigableString "Top"]; main_content_div]]].

(** A page without any class attribute. *)
Definition plain_page : node :=
  Tag "[document]" ∅
      [Tag "html" ∅ [Tag "body" ∅ [Tag "main" ∅ [NavigableString "Hi"]]]].

(** A list of the record is the candidates of its loop, each at its first
    place, cut at the list's cap. *)
Definition first_seen_capped (cap : nat) (cands l : list string) : Prop :=
  l = firstn cap (first_seen cands)
  /\ List.NoDup l
  /\ List.length l <= cap
  /\ List.length l = Nat.min cap (List.length (first_seen cands)).

Definition clean_head (s : string) : Prop :=
  match s with
  | EmptyString => True
  | String c _ => is_space c = false
  end.

(** A plain line: no CR, no LF. *)
Fixpoint plain (s : string) : bool :=
  match s with
  | EmptyString => true
  | String c s' => negb (Ascii.eqb c CR) && negb (Ascii.eqb c LF) && plain s'
  end.

(** The lines of a file as the validator reads them. *)
Definition file_lines (data : string) : list string :=
  split_char LF (translate_newlines false data).

Definition has_keyword (x : string) : Prop :=
  exists kw, List.In kw content_keywords /\ exists a b, x = a +:+ kw +:+ b.

(** The least number of characters a match of a pattern takes. *)
Fixpoint minlen (r : regex) : nat :=
  match r with
  | Eps | Look _ | EndZ => 0
  | Chr _ => 1
  | Seq r1 r2 => minlen r1 + minlen r2
  | Alt r1 r2 => Nat.min (minlen r1) (minlen r2)
  | Rep _ min _ => min
  | Group _ r1 => minlen r1
  end.

(** No lookahead in the pattern. *)
Fixpoint look_free (r : regex) : bool :=
  match r with
  | Look _ => false
  | Seq r1 r2 | Alt r1 r2 => look_free r1 && look_free r2
  | Group _ r1 => look_free r1
  | _ => true
  end.

(** Every pattern the script uses, with its IGNORECASE flag. *)
Definition script_patterns : list (bool * regex) :=
  map (pair false) [blank_lines_re; link_re; image_re; tag_re; spaces_re;
                    endpoint_re; event_pattern]
  ++ map (pair true) (concepts_patterns ++ param_patterns ++ field_patterns).

(** A substitution whose replacement is always shorter than the match. *)
Definition shrinking (ic : bool) (r : regex) (tpl : list repl_item) : Prop :=
  forall (adv : bool) (s : string) (n : nat) (caps : captures),
    match_at ic r adv s = Some (n, caps) ->
    String.length (expand tpl caps) < n.

(** Every character of [s] passes the test [ok]. *)
Fixpoint all_chars (ok : ascii -> bool) (s : string) : bool :=
  match s with
  | EmptyString => true
  | String c s' => ok c && all_chars ok s'
  end.

Definition is_backquote (c : ascii) : bool := Ascii.eqb "`" c.

(** The characters of an event name after [response.]: those of [[\w_]]. *)
Definition is_event_char (c : ascii) : bool :=
  cmatch false (CAnyOf [AWord; ALit "_"]) c.

(** An event name: [response.] and at least one more character. *)
Definition event_name (e : string) : Prop :=
  exists w, e = "response." +:+ w /\ w <> ""
            /\ all_chars is_event_char w = true.

(** A text with backquoted names in it: each name comes after a stretch of
    text [sep], and [tail] ends the text. *)
Fixpoint quoted_text (items : list (string * string)) (tail : string)
  : string :=
  match items with
  | [] => tail
  | (sep, e) :: rest => sep +:+ "`" +:+ e +:+ "`" +:+ quoted_text rest tail
  end.

(** The characters of an endpoint's path after its first slash: those of
    [[\w\/\-]]. *)
Definition is_path_char (c : ascii) : bool :=
  cmatch false (CAnyOf [AWord; ALit "/"; ALit "-"]) c.

(** An endpoint as the record lists it: a method, one blank, a path. *)
Definition endpoint_shape (endpoint : string) : Prop :=
  exists method path,
    endpoint = method +:+ " /" +:+ path
    /\ List.In method ["POST"; "GET"; "PUT"; "DELETE"]
    /\ path <> ""
    /\ all_chars is_path_char path = true.

(** 1 for a non-empty list, 0 for an empty one. *)
Definition present {A} (l : list A) : nat :=
  if is_nil l then 0 else 1.

(** A small document of plain lines, and a world to write it in. *)
Definition sample_lines : list string :=
  ["# Title"; ""; "> Summary"; ""; "## Section"; "- [a](b)"; ""].

(** Induction on a parsed page: a property of a tag may rest on the
    property of its contents. *)
Fixpoint node_induction (P : node -> Prop)
         (HS : forall s, P (NavigableString s))
         (HC : forall s, P (Comment s))
         (HT : forall name attrs contents,
             Forall P contents -> P (Tag name attrs contents))
         (n : node) : P n :=
  match n with
  | NavigableString s => HS s
  | Comment s => HC s
  | Tag name attrs contents =>
      HT name attrs contents
         ((fix go (l : list node) : Forall P l :=
             match l with
             | [] => @List.Forall_nil node P
             | c :: rest =>
                 @List.Forall_cons node P c rest
                   (node_induction P HS HC HT c) (go rest)
             end) contents)
  end.

(** What [decompose_all] makes of the contents of a tag. *)
Definition decompose_contents (names : list string) (contents : list node)
  : list node :=
  (fix go (l : list node) : list node :=
     match l with
     | [] => []
     | c :: rest =>
         if is_named names c then go rest
         else decompose_all names c :: go rest
     end) contents.

(** The strings of a page, in document order. *)
Definition strings_of (n : node) : list string :=
  flat_map own_string (descendants n).

(** [extract_content_from_html]: the text of the whole page on one line. *)
Definition extract_content_from_html (BeautifulSoup : string -> node)
           (html_content : string) : string :=
  let soup := BeautifulSoup html_content in
  (* Remove script and style elements *)
  let soup := decompose_all ["script"; "style"] soup in
  (* Get text content *)
  let text := get_text "" soup in
  (* Clean up text *)
  let lines := map strip (splitlines text) in
  let chunks := flat_map (fun line => map strip (split_two_spaces line)) lines in
  join " " (filter nonempty chunks).

(** A page with a script and a style element among its text. *)
Definition scripted_page : node :=
  Tag "[document]" ∅
      [Tag "html" ∅
           [Tag "head" ∅ [Tag "style" ∅ [NavigableString "p { color: red }"]];
            Tag "body" ∅
                [Tag "p" ∅ [NavigableString "Visible"];
                 Tag "script" ∅ [NavigableString "alert(1)"]]]].

Definition is_not (c0 : ascii) (c : ascii) : bool := negb (Ascii.eqb c c0).

(** None of the characters of [chars] is in [s]. *)
Definition lacks (chars : string) (s : string) : bool :=
  all_chars (fun c => negb (existsb (Ascii.eqb c) (list_ascii_of_string chars))) s.

(** A text with marked places: each item is a stretch of text, a piece of
    markup after it, and what the markup is to become; [tail] ends the
    text. *)
Fixpoint marked_text (items : list (string * string * string)) (tail : string)
  : string :=
  match items with
  | [] => tail
  | (sep, markup, _) :: rest => sep +:+ markup +:+ marked_text rest tail
  end.

(** The same text with every piece of markup replaced. *)
Fixpoint replaced_text (items : list (string * string * string))
         (tail : string) : string :=
  match items with
  | [] => tail
  | (sep, _, replacement) :: rest =>
      sep +:+ replacement +:+ replaced_text rest tail
  end.

(** A link [[text](url)] after a stretch of text; it is to become its
    text. *)
Definition link_item (it : string * string * string)
  : string * string * string :=
  let '(sep, text, url) := it in
  (sep, "[" +:+ text +:+ "](" +:+ url +:+ ")", text).

(** A tag [<body>] after a stretch of text; it is to vanish. *)
Definition tag_item (it : string * string) : string * string * string :=
  let '(sep, body) := it in (sep, "<" +:+ body +:+ ">", EmptyString).

(** An item is matched by a substitution: its stretch is quiet, its markup
    is matched as a whole, whatever follows, and its replacement is what the
    template gives. *)
Definition item_matched (r : regex) (tpl : list repl_item)
           (quiet : ascii -> bool) (it : string * string * string) : Prop :=
  let '(sep, markup, replacement) := it in
  all_chars quiet sep = true
  /\ markup <> ""
  /\ forall rest, exists caps,
       match_at false r false (markup +:+ rest)
       = Some (String.length markup, caps)
       /\ expand tpl caps = replacement.

(** What the cleaner asks of a link and of the stretch before it. *)
Definition clean_link (it : string * string * string) : Prop :=
  let '(sep, text, url) := it in
  lacks "[<" sep = true
  /\ text <> "" /\ lacks "[]<" text = true
  /\ url <> "" /\ lacks ")" url = true.

(** What the cleaner asks of a tag and of the stretch before it. *)
Definition clean_tag (it : string * string) : Prop :=
  let '(sep, body) := it in
  lacks "[<" sep = true /\ body <> "" /\ lacks "[>" body = true.

(** Two links and a tag in a line of text. *)
Definition two_links : list (string * string * string) :=
  [("See ", "Docs", "http://x"); (" and ", "the API", "http://y/z")].

Definition two_tags : list (string * string) :=
  [("Some ", "b"); ("bold", "/b")].

Definition missing_h1_line : string :=
  "  - Missing H1 heading (should start with '# ')".
Definition missing_summary_line : string :=
  "  - Missing blockquote summary (should start with '> ')".
Definition missing_h2_line : string :=
  "  - Need at least 1 H2 section (should start with '## ')".

Definition no_linebreak (s : string) : bool :=
  all_chars (fun c => negb (is_linebreak c)) s.

(** A tidy piece of text: not empty, no blank at either end, no two blanks
    in a row, no line break. *)
Definition tidy (c : string) : Prop :=
  c <> "" /\ strip c = c /\ contains "  " c = false /\ no_linebreak c = true.

(** The chunks both extractions make of a text: its lines, trimmed, cut at
    double blanks, trimmed again, the empty ones dropped. *)
Definition chunks_of (text : string) : list string :=
  filter nonempty
    (flat_map (fun line => map strip (split_two_spaces line))
              (map strip (splitlines text))).



(** A network on which [requests.get] lets urllib3's error through. *)
Definition net_unparsable (u : string) : response + exn :=
  inr (OtherException "LocationParseError"
                      "Failed to parse: 'a..b', label empty or too long").

(** A network that answers 304 with a body. *)
Definition net_not_modified (u : string) : response + exn :=
  inl {| status_code := 304; reason := "Not Modified"; url := u;
         text := "cached page" |}.

(** The strings of a page outside the elements of the given names, in
    document order. *)
Fixpoint visible_strings (names : list string) (n : node) : list string :=
  match n with
  | Tag _ _ contents =>
      (fix go (l : list node) : list string :=
         match l with
         | [] => []
         | c :: rest =>
             (if is_named names c then []
              else own_string c ++ visible_strings names c)
             ++ go rest
         end) contents
  | _ => []
  end.

(** A page without a body element. *)
Definition bodyless_page : node :=
  Tag "[document]" ∅ [Tag "p" ∅ [NavigableString "Bare"]].

(** Thirty distinct event names with a second dot, as the events of the
    specification have them. *)
Definition thirty_dotted_events : list string :=
  map (fun i => "response.output_item_" +:+ str_of_nat i +:+ ".done")
      (seq 1 30).

Definition thirty_dotted_events_text : string :=
  join nl (map code_bullet thirty_dotted_events).



Definition open_succeeds (path : string) : option exn := None.

(** A page with two body elements. *)
Definition two_body_page : node :=
  Tag "[document]" ∅
    [Tag "html" ∅
       [Tag "body" ∅ [NavigableString "First"];
        Tag "body" ∅ [NavigableString "Second"]]].

(** No element of the name [body]. *)
Definition not_body (d : node) : Prop :=
  forall attrs contents, d <> Tag "body" attrs contents.

(** A file system on which the directory of every path is missing. *)
Definition open_in_missing_directory (path : string) : option exn :=
  Some (FileNotFoundError path).

(** ** Properties *)

(** *** Strings *)

Lemma append_cons (c : ascii) (s t : string) :
  String c s +:+ t = String c (s +:+ t).
Proof. reflexivity. Qed.

Lemma append_empty_l (t : string) : "" +:+ t = t.
Proof. reflexivity. Qed.

Lemma append_empty_r (s : string) : s +:+ "" = s.
Proof. induction s as [|c s IH]; [reflexivity|]. rewrite append_cons, IH. reflexivity. Qed.

Lemma append_assoc' (a b c : string) : (a +:+ b) +:+ c = a +:+ (b +:+ c).
Proof.
  induction a as [|x a IH]; [reflexivity|].
  rewrite !append_cons, IH. reflexivity.
Qed.

Lemma startswith_iff (p s : string) :
  startswith p s = true <-> exists t, s = p +:+ t.
Proof.
  revert s; induction p as [|a p IH]; intros s; simpl.
  - split; [eauto|reflexivity].
  - destruct s as [|b s].
    + split; [discriminate|intros [t H]; discriminate].
    + rewrite andb_true_iff, Ascii.eqb_eq, IH. split.
      * intros [-> [t ->]]. eauto.
      * intros [t H]. rewrite append_cons in H. injection H as -> ->. eauto.
Qed.

Lemma contains_iff (needle hay : string) :
  contains needle hay = true <-> exists a b, hay = a +:+ needle +:+ b.
Proof.
  induction hay as [|c hay IH].
  - simpl. rewrite orb_false_r, startswith_iff. split.
    + intros [t H]. exists "", t. exact H.
    + intros [a [b H]]. destruct a; [eauto|discriminate].
  - cbn [contains]. rewrite orb_true_iff, startswith_iff, IH. split.
    + intros [[t H]|[a [b H]]].
      * exists "", t. exact H.
      * exists (String c a), b. rewrite append_cons. congruence.
    + intros [a [b H]]. destruct a as [|x a].
      * left. eauto.
      * right. rewrite append_cons in H. injection H as _ H. eauto.
Qed.

Lemma mem_iff (x : string) (l : list string) : mem x l = true <-> List.In x l.
Proof.
  unfold mem. rewrite existsb_exists. split.
  - intros [y [Hy E]]. apply String.eqb_eq in E. congruence.
  - intros H. exists x. split; [exact H|apply String.eqb_refl].
Qed.

Lemma mem_false_iff (x : string) (l : list string) :
  mem x l = false <-> ~ List.In x l.
Proof. rewrite <- mem_iff. destruct (mem x l); split; congruence. Qed.

(** *** The matcher *)

Lemma length_append (a b : string) :
  String.length (a +:+ b) = String.length a + String.length b.
Proof.
  induction a as [|x a IH]; [reflexivity|].
  rewrite append_cons. cbn [String.length]. rewrite IH. reflexivity.
Qed.

Lemma length_substring_0 (m : nat) (s : string) :
  m <= String.length s -> String.length (substring 0 m s) = m.
Proof.
  revert m; induction s as [|x s IH]; intros [|m] H; cbn in *;
    try reflexivity; try lia.
  rewrite IH by lia. reflexivity.
Qed.

Section Consumption.

Context {T : Type}.
Variable ok : ascii -> bool.
Variable k : string -> option T.

(** A repetition that succeeds hands a suffix to the rest of the pattern,
    at least [min] characters further. *)
Lemma rep_greedy_consumes (s : string) (min : nat) (res : T) :
  rep_greedy ok min s k = Some res ->
  exists s1, k s1 = Some res /\ String.length s1 + min <= String.length s.
Proof.
  revert min; induction s as [|x s IH]; intros min; cbn [rep_greedy].
  - destruct min; [|discriminate]. intros H. exists "". split; [exact H|lia].
  - assert (Stop : match min with 0 => k (String x s) | S _ => None end
                   = Some res ->
                   exists s1, k s1 = Some res
                              /\ String.length s1 + min
                                 <= String.length (String x s)).
    { destruct min; [|discriminate]. intros H. eexists. split; [exact H|lia]. }
    destruct (ok x); [|exact Stop].
    destruct (rep_greedy ok (pred min) s k) as [r|] eqn:E; [|exact Stop].
    intros H. injection H as ->. destruct (IH _ E) as (s1 & H1 & L).
    exists s1. split; [exact H1|]. cbn [String.length]. lia.
Qed.

Lemma rep_lazy_consumes (s : string) (min : nat) (res : T) :
  rep_lazy ok min s k = Some res ->
  exists s1, k s1 = Some res /\ String.length s1 + min <= String.length s.
Proof.
  revert min; induction s as [|x s IH]; intros min; cbn [rep_lazy].
  - destruct min; [|discriminate]. destruct (k "") eqn:E; [|discriminate].
    intros H. injection H as ->. exists "". split; [exact E|lia].
  - assert (More : (if ok x then rep_lazy ok (pred min) s k else None)
                   = Some res ->
                   exists s1, k s1 = Some res
                              /\ String.length s1 + min
                                 <= String.length (String x s)).
    { destruct (ok x); [|discriminate]. intros H.
      destruct (IH _ H) as (s1 & H1 & L). exists s1.
      split; [exact H1|]. cbn [String.length]. lia. }
    destruct min; [|exact More].
    destruct (k (String x s)) eqn:E; [|exact More].
    intros H. injection H as ->. eexists. split; [exact E|lia].
Qed.

End Consumption.

(** A match hands the rest of the pattern a suffix at least [minlen r]
    characters further; without lookahead, a group it has set holds no more
    than the characters taken. *)
Lemma rmatch_consumes (ic : bool) (r : regex) :
  forall (s : string) (caps : captures)
         (k : string -> captures -> option (string * captures))
         (res : string * captures),
    rmatch ic r s caps k = Some res ->
    exists s1 c1,
      k s1 c1 = Some res
      /\ String.length s1 + minlen r <= String.length s
      /\ (look_free r = true ->
          forall i g, group i c1 = Some g ->
                      group i caps = Some g
                      \/ String.length g + String.length s1 <= String.length s).
Proof.
  induction r as [|c|r1 IH1 r2 IH2|r1 IH1 r2 IH2|greedy min c|n r1 IH1|r1 IH1|];
    intros s caps k res; cbn [rmatch minlen look_free].
  - intros H. exists s, caps. split; [exact H|]. split; [lia|]. auto.
  - destruct s as [|x s]; [discriminate|].
    destruct (cmatch ic c x); [|discriminate]. intros H.
    exists s, caps. split; [exact H|]. cbn [String.length]. split; [lia|]. auto.
  - intros H. destruct (IH1 _ _ _ _ H) as (s1 & c1 & H1 & L1 & G1).
    destruct (IH2 _ _ _ _ H1) as (s2 & c2 & H2 & L2 & G2).
    exists s2, c2. split; [exact H2|]. split; [lia|].
    intros F i g Hg. apply andb_true_iff in F as [F1 F2].
    destruct (G2 F2 i g Hg) as [Hg1|B]; [|right; lia].
    destruct (G1 F1 i g Hg1) as [Hg0|B]; [left; exact Hg0|right; lia].
  - intros H.
    destruct (rmatch ic r1 s caps k) as [r|] eqn:E.
    + injection H as ->. destruct (IH1 _ _ _ _ E) as (s1 & c1 & H1 & L1 & G1).
      exists s1, c1. split; [exact H1|]. split; [lia|].
      intros F. apply andb_true_iff in F as [F1 _]. exact (G1 F1).
    + destruct (IH2 _ _ _ _ H) as (s1 & c1 & H1 & L1 & G1).
      exists s1, c1. split; [exact H1|]. split; [lia|].
      intros F. apply andb_true_iff in F as [_ F2]. exact (G1 F2).
  - intros H.
    assert (exists s1, k s1 caps = Some res
                       /\ String.length s1 + min <= String.length s)
      as (s1 & H1 & L).
    { destruct greedy;
        [apply (rep_greedy_consumes _ _ _ _ _ H)
        |apply (rep_lazy_consumes _ _ _ _ _ H)]. }
    exists s1, caps. split; [exact H1|]. split; [exact L|]. auto.
  - intros H. destruct (IH1 _ _ _ _ H) as (s1 & c1 & H1 & L1 & G1).
    exists s1, ((n, consumed s s1) :: c1). split; [exact H1|].
    split; [exact L1|]. intros F i g. cbn [group].
    destruct (n =? i).
    + intros Hg. injection Hg as <-. right. unfold consumed.
      rewrite length_substring_0 by lia. lia.
    + apply (G1 F).
  - destruct (rmatch ic r1 s caps (fun s1 c1 => Some (s1, c1)))
      as [[s1 c1]|]; [|discriminate].
    intros H. exists s, c1. split; [exact H|]. split; [lia|]. discriminate.
  - destruct s; [|discriminate]. intros H. exists "", caps.
    split; [exact H|]. split; [lia|]. auto.
Qed.

(** What [match_at] returns: a length between the least length of the
    pattern and the length of the subject, and groups within that length. *)
Lemma match_at_bounds (ic : bool) (r : regex) (adv : bool) (s : string)
      (n : nat) (caps : captures) :
  match_at ic r adv s = Some (n, caps) ->
  minlen r <= n <= String.length s
  /\ (look_free r = true ->
      forall i g, group i caps = Some g -> String.length g <= n).
Proof.
  unfold match_at.
  destruct (rmatch ic r s [] _) as [[s1 c1]|] eqn:E; [|discriminate].
  intros H. injection H as <- <-.
  destruct (rmatch_consumes _ _ _ _ _ _ E) as (s1' & c1' & H1 & L & G).
  destruct (adv && _) in H1; [discriminate|]. injection H1 as -> ->.
  split; [lia|]. intros F i g Hg.
  destruct (G F i g Hg) as [Hg0|B]; [discriminate|lia].
Qed.

(** X7: No pattern of the script matches the empty string: a match always
    advances, and the engine's rule for empty matches is never used. *)
Lemma script_patterns_advance (ic : bool) (r : regex) (adv : bool)
      (s : string) (n : nat) (caps : captures) :
  List.In (ic, r) script_patterns ->
  match_at ic r adv s = Some (n, caps) -> 0 < n.
Proof.
  intros I H. apply match_at_bounds in H as [[L _] _].
  assert (A : forallb (fun p => 0 <? minlen (snd p)) script_patterns = true)
    by (vm_compute; reflexivity).
  rewrite forallb_forall in A. specialize (A _ I). cbn [snd] in A.
  apply Nat.ltb_lt in A. lia.
Qed.

(** *** Lists built by "append unless present" *)

Lemma filter_filter {A} (f g : A -> bool) (l : list A) :
  filter f (filter g l) = filter (fun x => f x && g x) l.
Proof.
  induction l as [|x l IH]; [reflexivity|]. simpl.
  destruct (g x); simpl; [destruct (f x)|rewrite andb_false_r]; simpl;
    rewrite IH; reflexivity.
Qed.

Lemma first_seen_In (x : string) (l : list string) :
  List.In x (first_seen l) <-> List.In x l.
Proof.
  induction l as [|y l IH]; [reflexivity|]. simpl.
  rewrite filter_In, IH, negb_true_iff, String.eqb_neq.
  destruct (String.eqb_spec y x) as [->|N]; intuition congruence.
Qed.

Lemma first_seen_NoDup (l : list string) : List.NoDup (first_seen l).
Proof.
  induction l as [|y l IH]; simpl; constructor.
  - rewrite filter_In, negb_true_iff, String.eqb_neq. intros [_ N]. congruence.
  - apply List.NoDup_filter, IH.
Qed.

(** Nothing changes at the first place of an element: the head of the
    input list heads the result, and the rest is the rest's result without
    it. *)
Lemma first_seen_idempotent (l : list string) :
  List.NoDup l -> first_seen l = l.
Proof.
  induction l as [|y l IH]; [reflexivity|]. intros H. simpl.
  apply List.NoDup_cons_iff in H as [N H]. rewrite (IH H). f_equal.
  apply forallb_filter_id, forallb_forall. intros z Hz.
  apply negb_true_iff, String.eqb_neq. congruence.
Qed.

Lemma fold_append_new (xs acc : list string) :
  fold_left append_new xs acc
  = acc ++ filter (fun y => negb (mem y acc)) (first_seen xs).
Proof.
  revert acc; induction xs as [|x xs IH]; intros acc; simpl.
  - rewrite app_nil_r. reflexivity.
  - rewrite IH. unfold append_new. rewrite filter_filter.
    destruct (mem x acc) eqn:E; simpl.
    + f_equal. apply filter_ext_in. intros y _.
      destruct (String.eqb_spec x y) as [<-|N]; simpl.
      * rewrite E. reflexivity.
      * rewrite andb_true_r. reflexivity.
    + rewrite <- app_assoc. simpl. do 2 f_equal. apply filter_ext_in.
      intros y _. unfold mem. rewrite existsb_app. simpl.
      rewrite orb_false_r, negb_orb, (String.eqb_sym y x). reflexivity.
Qed.

Lemma fold_add_candidate (candidate : found -> option string)
      (ms : list found) (acc : list string) :
  fold_left (add_candidate candidate) ms acc
  = fold_left append_new
      (flat_map (fun m => match candidate m with Some x => [x] | None => [] end) ms)
      acc.
Proof.
  revert acc; induction ms as [|m ms IH]; intros acc; [reflexivity|].
  simpl. rewrite fold_left_app, IH. unfold add_candidate.
  destruct (candidate m); reflexivity.
Qed.

(** The harvesting loops keep exactly the first occurrence of every
    candidate, in the order of discovery. *)
Lemma harvest_first_seen (candidate : found -> option string) (ic : bool)
      (patterns : list regex) (content : string) :
  harvest (add_candidate candidate) ic patterns content
  = first_seen (candidates candidate ic patterns content).
Proof.
  unfold harvest, candidates.
  assert (G : forall acc,
    fold_left (fun acc pattern =>
                 fold_left (add_candidate candidate)
                           (findall ic pattern content) acc) patterns acc
    = fold_left append_new
        (flat_map (fun pattern =>
           flat_map (fun m => match candidate m with
                              | Some x => [x] | None => [] end)
                    (findall ic pattern content)) patterns) acc).
  { induction patterns as [|p ps IH]; intros acc; [reflexivity|].
    simpl. rewrite fold_left_app, IH, fold_add_candidate. reflexivity. }
  rewrite G, fold_append_new. simpl.
  apply forallb_filter_id, forallb_forall. reflexivity.
Qed.

Lemma NoDup_firstn {A} (n : nat) (l : list A) :
  List.NoDup l -> List.NoDup (firstn n l).
Proof.
  revert n; induction l as [|x l IH]; intros [|n] H; simpl;
    try constructor.
  - apply List.NoDup_cons_iff in H as [N _]. intros I.
    apply N. rewrite <- (firstn_skipn n l). apply in_or_app. left. exact I.
  - apply IH. apply List.NoDup_cons_iff in H as [_ H]. exact H.
Qed.

Lemma capped_first_seen (n : nat) (l : list string) :
  List.NoDup (firstn n (first_seen l))
  /\ List.length (firstn n (first_seen l)) <= n
  /\ List.length (firstn n (first_seen l))
     = Nat.min n (List.length (first_seen l)).
Proof.
  split; [apply NoDup_firstn, first_seen_NoDup|].
  rewrite length_firstn. split; [apply Nat.le_min_l|reflexivity].
Qed.

(** *** Backquoted event names *)

Lemma lit_matches (p s : string) (caps : captures)
      (k : string -> captures -> option (string * captures)) :
  rmatch false (lit p) (p +:+ s) caps k = k s caps.
Proof.
  induction p as [|c p IH]; [reflexivity|].
  rewrite append_cons. destruct p as [|d p].
  - cbn [lit rmatch cmatch atom_match]. rewrite Ascii.eqb_refl. reflexivity.
  - change (lit (String c (String d p)))
      with (Seq (Chr (COne (ALit c))) (lit (String d p))).
    cbn [rmatch cmatch atom_match]. rewrite Ascii.eqb_refl. exact IH.
Qed.

(** A greedy repetition over a run of accepted characters that ends at a
    refused one stops there when the rest of the pattern goes on. *)
Lemma rep_greedy_run {T} (ok : ascii -> bool) (k : string -> option T)
      (c : ascii) (rest : string) (res : T) (w : string) :
  all_chars ok w = true -> ok c = false ->
  k (String c rest) = Some res ->
  forall min, min <= String.length w ->
  rep_greedy ok min (w +:+ String c rest) k = Some res.
Proof.
  intros A C K. induction w as [|x w IH]; intros min L.
  - cbn in L. assert (min = 0) as -> by lia.
    rewrite append_empty_l. cbn [rep_greedy]. rewrite C. exact K.
  - cbn [all_chars] in A. apply andb_true_iff in A as [Ax Aw].
    rewrite append_cons. cbn [rep_greedy]. rewrite Ax.
    cbn [String.length] in L. rewrite (IH Aw (pred min)) by lia. reflexivity.
Qed.

Lemma substring_prefix (a b : string) :
  substring 0 (String.length a) (a +:+ b) = a.
Proof.
  induction a as [|x a IH]; [destruct b; reflexivity|].
  rewrite append_cons. cbn [String.length substring]. rewrite IH. reflexivity.
Qed.

Lemma consumed_prefix (a b : string) : consumed (a +:+ b) b = a.
Proof.
  unfold consumed. rewrite length_append.
  replace (String.length a + String.length b - String.length b)
    with (String.length a) by lia.
  apply substring_prefix.
Qed.

(** The event pattern at a backquoted event name: the name is the match's
    group. *)
Lemma event_match (e rest : string) :
  event_name e ->
  match_at false event_pattern false ("`" +:+ e +:+ "`" +:+ rest)
  = Some (S (S (String.length e)), [(1, e)]).
Proof.
  intros (w & -> & Nw & Aw). unfold match_at.
  change event_pattern
    with (Seq (Chr (COne (ALit "`")))
              (Seq (Group 1 (Seq (lit "response.")
                                 (Rep true 1 (CAnyOf [AWord; ALit "_"]))))
                   (Chr (COne (ALit "`"))))).
  rewrite (append_cons "`" "").
  rewrite append_empty_l. cbn [rmatch].
  change (cmatch false (COne (ALit "`")) "`") with true. cbv iota.
  rewrite append_assoc'. rewrite lit_matches.
  set (s1 := "`" +:+ rest).
  rewrite (rep_greedy_run _ _ "`" rest
             (rest, [(1, "response." +:+ w)]) w Aw eq_refl).
  - cbn [String.length]. f_equal. f_equal.
    unfold s1. rewrite !length_append. cbn [String.length]. lia.
  - change (String "`" rest) with s1. cbn [andb].
    unfold s1 at 1. rewrite (append_cons "`" "" rest), append_empty_l.
    change (cmatch false (COne (ALit "`")) "`") with true. cbv iota.
    rewrite <- append_assoc'.
    change (String "`" rest) with s1.
    rewrite (consumed_prefix ("response." +:+ w) s1). reflexivity.
  - destruct w; [congruence|cbn; lia].
Qed.

Lemma event_no_match (adv : bool) (s : string) :
  match s with
  | EmptyString => True
  | String x _ => is_backquote x = false
  end ->
  match_at false event_pattern adv s = None.
Proof.
  unfold match_at.
  change event_pattern
    with (Seq (Chr (COne (ALit "`")))
              (Seq (Group 1 (Seq (lit "response.")
                                 (Rep true 1 (CAnyOf [AWord; ALit "_"]))))
                   (Chr (COne (ALit "`"))))).
  cbn [rmatch]. destruct s as [|x s]; [reflexivity|].
  unfold is_backquote. cbn [cmatch atom_match]. intros ->. reflexivity.
Qed.

Lemma scan_skip (ic : bool) (r : regex) (a b : string) :
  scan ic r (String.length a) (a +:+ b) = scan ic r 0 b.
Proof.
  induction a as [|x a IH]; [reflexivity|].
  rewrite append_cons. cbn [String.length scan]. exact IH.
Qed.

(** Text without a backquote has no event in it. *)
Lemma event_hits_after_plain (sep t : string) :
  all_chars (fun c => negb (is_backquote c)) sep = true ->
  hits event_pattern (scan false event_pattern 0 (sep +:+ t))
  = hits event_pattern (scan false event_pattern 0 t).
Proof.
  induction sep as [|x sep IH]; [reflexivity|]. cbn [all_chars].
  rewrite andb_true_iff, negb_true_iff. intros [Hx Hs].
  rewrite append_cons. cbn [scan].
  rewrite (event_no_match false (String x (sep +:+ t)) Hx).
  cbn [hits]. exact (IH Hs).
Qed.

Lemma event_hits_plain (tail : string) :
  all_chars (fun c => negb (is_backquote c)) tail = true ->
  hits event_pattern (scan false event_pattern 0 tail) = [].
Proof.
  intros H. rewrite <- (append_empty_r tail).
  rewrite (event_hits_after_plain tail "" H). reflexivity.
Qed.

(** The events found in a text with backquoted event names are these
    names, in the order of the text. *)
Lemma findall_quoted_events (items : list (string * string)) (tail : string) :
  Forall (fun it => all_chars (fun c => negb (is_backquote c)) (fst it) = true
                    /\ event_name (snd it)) items ->
  all_chars (fun c => negb (is_backquote c)) tail = true ->
  findall false event_pattern (quoted_text items tail)
  = map (fun it => FStr (snd it)) items.
Proof.
  intros F T. unfold findall.
  induction F as [|[sep e] items [Hs He] F IH]; cbn [quoted_text map].
  - apply event_hits_plain, T.
  - cbn [fst snd] in Hs, He |- *.
    rewrite (event_hits_after_plain sep _ Hs).
    set (rest := quoted_text items tail).
    pose proof (event_match e rest He) as M.
    rewrite (append_cons "`" "") in M |- *. rewrite append_empty_l in M |- *.
    cbn [scan]. rewrite M. cbn [hits]. f_equal.
    rewrite <- IH. fold rest. f_equal.
    replace (e +:+ "`" +:+ rest) with ((e +:+ "`") +:+ rest)
      by apply append_assoc'.
    replace (S (String.length e)) with (String.length (e +:+ "`"))
      by (rewrite length_append; cbn; lia).
    apply scan_skip.
Qed.

Lemma candidates_quoted_events (items : list (string * string))
      (tail : string) :
  Forall (fun it => all_chars (fun c => negb (is_backquote c)) (fst it) = true
                    /\ event_name (snd it)) items ->
  all_chars (fun c => negb (is_backquote c)) tail = true ->
  candidates event_candidate false [event_pattern] (quoted_text items tail)
  = map snd items.
Proof.
  intros F T. unfold candidates. cbn [flat_map]. rewrite app_nil_r.
  rewrite (findall_quoted_events items tail F T).
  clear F T. induction items as [|it items IH]; [reflexivity|].
  cbn [map flat_map event_candidate app]. rewrite IH. reflexivity.
Qed.

(** *** The Key Info Record *)

Lemma harvest_capped (candidate : found -> option string) (ic : bool)
      (patterns : list regex) (content : string) (cap : nat) :
  first_seen_capped cap (candidates candidate ic patterns content)
    (firstn cap (harvest (add_candidate candidate) ic patterns content)).
Proof.
  rewrite harvest_first_seen. split; [reflexivity|apply capped_first_seen].
Qed.

(** C2, refuted for names with a second dot: thirty distinct backquoted
    tokens that start with [response.] give no streaming event at all when
    each has a dot after its first word, as the event names of the
    specification have; [response.output_text.delta] in backquotes is not
    found either. *)
Lemma dotted_events_are_missed :
  List.length thirty_dotted_events = 30
  /\ List.NoDup thirty_dotted_events
  /\ Forall (fun e => startswith "response." e = true) thirty_dotted_events
  /\ streaming_events (extract_key_info_from_content thirty_dotted_events_text)
     = []
  /\ streaming_events (extract_key_info_from_content thirty_dotted_events_text)
     <> firstn 15 thirty_dotted_events
  /\ streaming_events
       (extract_key_info_from_content "- `response.output_text.delta`")
     = [].
Proof.
  assert (E : streaming_events
                (extract_key_info_from_content thirty_dotted_events_text) = [])
    by (vm_compute; reflexivity).
  split; [reflexivity|]. split.
  { assert (F : first_seen thirty_dotted_events = thirty_dotted_events)
      by (vm_compute; reflexivity).
    rewrite <- F. apply first_seen_NoDup. }
  split.
  { apply Forall_forall. intros e I. apply in_map_iff in I as (i & <- & _).
    reflexivity. }
  split; [exact E|]. split; [rewrite E; discriminate|].
  vm_compute; reflexivity.
Qed.

(** C2: for every input text each of the five lists of the Key Info Record
    holds pairwise-distinct strings in the order of their first discovery
    and has at most 5, 10, 20, 20 and 15 elements; a text with thirty
    distinct backquoted names, each [response.] followed by letters, digits
    and underscores only (the sample text, and every text made of thirty
    such names between stretches without backquotes), gives exactly the
    first fifteen as streaming_events, and the foo/bar/foo input gives the
    parameters foo, bar. *)
Theorem key_info_lists_distinct_capped (content : string) :
  let key_info := extract_key_info_from_content content in
  first_seen_capped 5
    (candidates concept_candidate true concepts_patterns content)
    (core_concepts key_info)
  /\ first_seen_capped 10
       (candidates endpoint_candidate false [endpoint_re] content)
       (endpoints key_info)
  /\ first_seen_capped 20
       (candidates param_candidate true param_patterns content)
       (parameters key_info)
  /\ first_seen_capped 20
       (candidates field_candidate true field_patterns content)
       (response_fields key_info)
  /\ first_seen_capped 15
       (candidates event_candidate false [event_pattern] content)
       (streaming_events key_info)
  /\ (List.length thirty_events = 30
      /\ List.NoDup thirty_events
      /\ candidates event_candidate false [event_pattern] thirty_events_text
         = thirty_events
      /\ streaming_events (extract_key_info_from_content thirty_events_text)
         = firstn 15 thirty_events
      /\ List.length
           (streaming_events (extract_key_info_from_content thirty_events_text))
         = 15)
  /\ (forall (items : list (string * string)) (tail : string),
        Forall (fun it =>
                  all_chars (fun c => negb (is_backquote c)) (fst it) = true
                  /\ event_name (snd it)) items ->
        all_chars (fun c => negb (is_backquote c)) tail = true ->
        List.NoDup (map snd items) ->
        List.length items = 30 ->
        let events :=
          streaming_events
            (extract_key_info_from_content (quoted_text items tail)) in
        events = firstn 15 (map snd items) /\ List.length events = 15)
  /\ parameters (extract_key_info_from_content foo_bar_foo) = ["foo"; "bar"].
Proof.
  cbv zeta. unfold extract_key_info_from_content; cbn [core_concepts endpoints
    parameters response_fields streaming_events].
  unfold add_concept, add_endpoint, add_param, add_field, add_event.
  repeat (split; [apply harvest_capped|]).
  split; [|split; [|vm_compute; reflexivity]].
  - split; [reflexivity|]. split.
    { assert (E : first_seen thirty_events = thirty_events)
        by (vm_compute; reflexivity).
      rewrite <- E. apply first_seen_NoDup. }
    repeat split; vm_compute; reflexivity.
  - intros items tail F T N L. cbv zeta.
    rewrite harvest_first_seen.
    rewrite (candidates_quoted_events items tail F T).
    rewrite (first_seen_idempotent _ N).
    split; [reflexivity|]. rewrite length_firstn, length_map, L. reflexivity.
Qed.

(** *** The Markdown Cleaner *)

(** C1: on "See [Docs](http://x) and ![img](http://y) here" the cleaner
    returns "See Docs and !img here", not "See Docs and  here": the link
    rule runs first and rewrites the bracket part of the image as well, so
    the image rule finds nothing and the "!" stays.  With the image rule
    first the result is "See Docs and  here": the order matters. *)
Theorem clean_link_rule_takes_image :
  clean_markdown_content see_docs = "See Docs and !img here"
  /\ clean_markdown_content see_docs <> "See Docs and  here"
  /\ clean_image_rule_first see_docs = "See Docs and  here".
Proof.
  assert (E : clean_markdown_content see_docs = "See Docs and !img here")
    by (vm_compute; reflexivity).
  split; [exact E|]. split; [rewrite E; discriminate|].
  vm_compute; reflexivity.
Qed.

Lemma scan_no_match (ic : bool) (r : regex) (s : string) :
  has_match ic r s = false -> scan ic r 0 s = map Gap (list_ascii_of_string s).
Proof.
  unfold has_match. induction s as [|x s IH]; cbn [scan].
  - destruct (match_at ic r false "") as [[[|n] caps]|];
      [discriminate|discriminate|reflexivity].
  - destruct (match_at ic r false (String x s)) as [[[|n] caps]|];
      [discriminate|discriminate|].
    cbn [existsb is_hit orb]. intros H. rewrite (IH H). reflexivity.
Qed.

(** A substitution whose pattern matches nowhere returns its subject. *)
Lemma sub_no_match (ic : bool) (r : regex) (tpl : list repl_item) (s : string) :
  has_match ic r s = false -> sub ic r tpl s = s.
Proof.
  intros H. unfold sub. rewrite (scan_no_match _ _ _ H).
  clear H. induction s as [|x s IH]; [reflexivity|].
  cbn [list_ascii_of_string map render]. rewrite IH. reflexivity.
Qed.

Lemma lstrip_clean_head (s : string) : clean_head (lstrip s).
Proof.
  induction s as [|c s IH]; simpl; [exact I|].
  destruct (is_space c) eqn:E; [exact IH|exact E].
Qed.

Lemma lstrip_id (s : string) : clean_head s -> lstrip s = s.
Proof. destruct s as [|c s]; simpl; [reflexivity|intros ->; reflexivity]. Qed.

Lemma rstrip_clean_head (s : string) : clean_head s -> clean_head (rstrip s).
Proof.
  destruct s as [|c s]; simpl; [exact (fun H => H)|]. intros H.
  destruct (rstrip s); [rewrite H|]; exact H.
Qed.

Lemma rstrip_idempotent (s : string) : rstrip (rstrip s) = rstrip s.
Proof.
  induction s as [|c s IH]; [reflexivity|]. cbn [rstrip].
  destruct (rstrip s) as [|d r] eqn:E.
  - destruct (is_space c) eqn:Ec; [reflexivity|].
    cbn [rstrip]. rewrite Ec. reflexivity.
  - change (rstrip (String c (String d r))) with
      (match rstrip (String d r) with
       | EmptyString => if is_space c then EmptyString else String c EmptyString
       | r' => String c r'
       end).
    rewrite IH. reflexivity.
Qed.

Lemma strip_idempotent (s : string) : strip (strip s) = strip s.
Proof.
  unfold strip.
  rewrite (lstrip_id (rstrip (lstrip s))).
  - apply rstrip_idempotent.
  - apply rstrip_clean_head, lstrip_clean_head.
Qed.

Lemma clean_is_stripped (s : string) : exists t, clean_markdown_content s = strip t.
Proof. unfold clean_markdown_content. eauto. Qed.

Lemma clean_rule_free (t : string) :
  rule_free t = true -> clean_markdown_content t = strip t.
Proof.
  unfold rule_free. rewrite !andb_true_iff, !negb_true_iff.
  intros [[[H1 H2] H3] H4]. unfold clean_markdown_content.
  rewrite (sub_no_match _ _ _ _ H1), (sub_no_match _ _ _ _ H2),
    (sub_no_match _ _ _ _ H3), (sub_no_match _ _ _ _ H4).
  reflexivity.
Qed.

(** The text a shrinking substitution returns is no longer than its
    subject, and shorter when there is a match. *)
Lemma scan_render_length (ic : bool) (r : regex) (tpl : list repl_item) :
  shrinking ic r tpl ->
  forall (s : string) (skip : nat),
    skip <= String.length s ->
    String.length (render tpl (scan ic r skip s)) + skip <= String.length s
    /\ (existsb is_hit (scan ic r skip s) = true ->
        String.length (render tpl (scan ic r skip s)) + skip < String.length s).
Proof.
  intros Sh. induction s as [|x s IH]; intros skip Hs.
  - destruct skip; [|cbn in Hs; lia]. cbn [scan].
    destruct (match_at ic r false "") as [[[|n] caps]|] eqn:E.
    + apply Sh in E. lia.
    + apply match_at_bounds in E as [[_ L] _]. cbn in L. lia.
    + cbn. split; [lia|discriminate].
  - destruct skip as [|m].
    + cbn [scan].
      destruct (match_at ic r false (String x s)) as [[[|n] caps]|] eqn:E.
      * apply Sh in E. lia.
      * pose proof (Sh _ _ _ _ E) as L1.
        apply match_at_bounds in E as [[_ L2] _]. cbn [String.length] in L2.
        destruct (IH n ltac:(lia)) as [L3 _].
        cbn [render existsb is_hit orb String.length].
        rewrite length_append. split; [lia|intros _; lia].
      * destruct (IH 0 ltac:(lia)) as [L3 L4].
        cbn [render existsb is_hit orb String.length]. split; [lia|].
        intros H. specialize (L4 H). lia.
    + cbn [scan String.length]. cbn [String.length] in Hs.
      destruct (IH m ltac:(lia)) as [L3 L4]. split; [lia|].
      intros H. specialize (L4 H). lia.
Qed.

Lemma sub_length (ic : bool) (r : regex) (tpl : list repl_item) (s : string) :
  shrinking ic r tpl ->
  String.length (sub ic r tpl s) <= String.length s
  /\ (has_match ic r s = true ->
      String.length (sub ic r tpl s) < String.length s).
Proof.
  intros Sh. unfold sub, has_match.
  destruct (scan_render_length ic r tpl Sh s 0 ltac:(lia)) as [L1 L2].
  split; [lia|]. intros H. specialize (L2 H). lia.
Qed.

Lemma shrinking_by_minlen (ic : bool) (r : regex) (text : string) :
  String.length text < minlen r -> shrinking ic r [RLit text].
Proof.
  intros L adv s n caps H. apply match_at_bounds in H as [[L1 _] _].
  cbn [expand fold_right]. rewrite append_empty_r. lia.
Qed.

Lemma shrinking_to_nothing (ic : bool) (r : regex) :
  0 < minlen r -> shrinking ic r [].
Proof.
  intros L adv s n caps H. apply match_at_bounds in H as [[L1 _] _].
  cbn [expand fold_right String.length]. lia.
Qed.

(** The text of a link is shorter than the link. *)
Lemma link_rule_shrinking : shrinking false link_re [RGroup 1].
Proof.
  intros adv s n caps H. pose proof H as B.
  apply match_at_bounds in B as [[L _] _].
  change (minlen link_re) with 6 in L.
  cbn [expand fold_right]. rewrite append_empty_r.
  destruct (group 1 caps) as [g|] eqn:G; [|cbn; lia].
  change (default "" (Some g)) with g.
  unfold match_at in H.
  change link_re
    with (Seq (Chr (COne (ALit "[")))
              (seqs [Group 1 (plus (none_of "]")); lit "](";
                     plus (none_of ")"); lit ")"])) in H.
  cbn [rmatch] in H. destruct s as [|x s]; [discriminate|].
  destruct (cmatch false (COne (ALit "[")) x); [|discriminate].
  destruct (rmatch false _ s [] _) as [[s1 c1]|] eqn:E; [|discriminate].
  injection H as <- <-.
  destruct (rmatch_consumes _ _ _ _ _ _ E) as (s1' & c1' & H1 & L1 & G1).
  destruct (adv && _) in H1; [discriminate|]. injection H1 as -> ->.
  destruct (G1 eq_refl 1 g G) as [N|B]; [discriminate|].
  cbn [String.length]. cbn [String.length] in L. lia.
Qed.

Lemma lstrip_length (s : string) : String.length (lstrip s) <= String.length s.
Proof.
  induction s as [|c s IH]; cbn [lstrip]; [lia|].
  destruct (is_space c); cbn [String.length]; lia.
Qed.

Lemma rstrip_length (s : string) : String.length (rstrip s) <= String.length s.
Proof.
  induction s as [|c s IH]; cbn [rstrip]; [lia|].
  destruct (rstrip s); [destruct (is_space c)|]; cbn [String.length] in *; lia.
Qed.

Lemma strip_length (s : string) : String.length (strip s) <= String.length s.
Proof.
  unfold strip. pose proof (rstrip_length (lstrip s)).
  pose proof (lstrip_length s). lia.
Qed.

Lemma blank_rule_shrinking :
  shrinking false blank_lines_re [RLit (nl +:+ nl)].
Proof.
  apply shrinking_by_minlen.
  change (String.length (nl +:+ nl)) with 2.
  change (minlen blank_lines_re) with 3. lia.
Qed.

Lemma image_rule_shrinking : shrinking false image_re [].
Proof.
  apply shrinking_to_nothing. change (minlen image_re) with 6. lia.
Qed.

Lemma tag_rule_shrinking : shrinking false tag_re [].
Proof.
  apply shrinking_to_nothing. change (minlen tag_re) with 3. lia.
Qed.

(** A text in which a rule of the cleaner matches is made shorter by the
    cleaner. *)
Lemma clean_shortens (t : string) :
  rule_free t = false ->
  String.length (clean_markdown_content t) < String.length t.
Proof.
  unfold rule_free, clean_markdown_content. intros H.
  set (t1 := sub false blank_lines_re [RLit (nl +:+ nl)] t).
  set (t2 := sub false link_re [RGroup 1] t1).
  set (t3 := sub false image_re [] t2).
  set (t4 := sub false tag_re [] t3).
  pose proof (strip_length t4) as L5.
  destruct (sub_length false blank_lines_re [RLit (nl +:+ nl)] t
              blank_rule_shrinking) as [L1 S1].
  destruct (sub_length false link_re [RGroup 1] t1 link_rule_shrinking)
    as [L2 S2].
  destruct (sub_length false image_re [] t2 image_rule_shrinking)
    as [L3 S3].
  destruct (sub_length false tag_re [] t3 tag_rule_shrinking) as [L4 S4].
  fold t1 in L1, S1. fold t2 in L2, S2. fold t3 in L3, S3. fold t4 in L4, S4.
  destruct (has_match false blank_lines_re t) eqn:M1.
  { specialize (S1 eq_refl). lia. }
  assert (E1 : t1 = t) by (apply sub_no_match, M1).
  destruct (has_match false link_re t) eqn:M2.
  { rewrite <- E1 in M2. specialize (S2 M2). lia. }
  assert (E2 : t2 = t) by (unfold t2; rewrite E1; apply sub_no_match, M2).
  destruct (has_match false image_re t) eqn:M3.
  { rewrite <- E2 in M3. specialize (S3 M3). lia. }
  assert (E3 : t3 = t) by (unfold t3; rewrite E2; apply sub_no_match, M3).
  destruct (has_match false tag_re t) eqn:M4.
  { rewrite <- E3 in M4. specialize (S4 M4). lia. }
  discriminate.
Qed.

(** C5, as the claim states it, fails: cleaning a link nested in a link
    leaves a link, which a second cleaning removes. *)
Lemma clean_not_idempotent :
  clean_markdown_content (clean_markdown_content "[[a](b)](c)")
  <> clean_markdown_content "[[a](b)](c)".
Proof. vm_compute. discriminate. Qed.

(** C5, amended: cleaning a second time changes nothing exactly when no
    rule of the cleaner matches in the text cleaned once (no run of blank
    lines, no link, no image, no tag); in particular the cleaner is
    idempotent on every such input. *)
Theorem clean_idempotent_iff_rule_free (s : string) :
  clean_markdown_content (clean_markdown_content s) = clean_markdown_content s
  <-> rule_free (clean_markdown_content s) = true.
Proof.
  split.
  - intros E. destruct (rule_free (clean_markdown_content s)) eqn:R;
      [reflexivity|].
    apply clean_shortens in R. rewrite E in R. lia.
  - intros H. rewrite (clean_rule_free _ H).
    destruct (clean_is_stripped s) as [t ->]. apply strip_idempotent.
Qed.

Lemma clean_idempotent_iff_rule_free_witness :
  rule_free (clean_markdown_content see_docs) = true
  /\ clean_markdown_content (clean_markdown_content see_docs)
     = clean_markdown_content see_docs.
Proof.
  split; [vm_compute; reflexivity|].
  apply (clean_idempotent_iff_rule_free see_docs). vm_compute; reflexivity.
Defined.

(** *** Lines *)

Lemma split_char_nonempty (c : ascii) (s : string) : split_char c s <> [].
Proof.
  destruct s as [|x s]; simpl; [discriminate|].
  destruct (Ascii.eqb x c); [discriminate|].
  destruct (split_char c s); discriminate.
Qed.

Lemma cons_head_app (x : ascii) (l1 l2 : list string) :
  l1 <> [] -> cons_head x (l1 ++ l2) = cons_head x l1 ++ l2.
Proof. destruct l1; [congruence|reflexivity]. Qed.

Lemma join_cons (sep x : string) (l : list string) :
  l <> [] -> join sep (x :: l) = x +:+ sep +:+ join sep l.
Proof. destruct l; [congruence|reflexivity]. Qed.

Lemma join_cons_head (c x : ascii) (l : list string) :
  l <> [] ->
  join (String c "") (cons_head x l) = String x (join (String c "") l).
Proof.
  destruct l as [|h [|h' t]]; [congruence|reflexivity|reflexivity].
Qed.

(** Splitting at a character and joining with it again gives the text
    back: the pieces are the lines of the text. *)
Lemma join_split_char (c : ascii) (s : string) :
  join (String c "") (split_char c s) = s.
Proof.
  induction s as [|x s IH]; [reflexivity|]. cbn [split_char].
  destruct (Ascii.eqb_spec x c) as [->|N].
  - rewrite join_cons by apply split_char_nonempty. rewrite IH. reflexivity.
  - rewrite join_cons_head by apply split_char_nonempty. rewrite IH.
    reflexivity.
Qed.

Lemma split_char_app (c : ascii) (a b : string) :
  split_char c (a +:+ String c b) = split_char c a ++ split_char c b.
Proof.
  induction a as [|x a IH].
  - rewrite append_empty_l. cbn [split_char]. rewrite Ascii.eqb_refl.
    reflexivity.
  - rewrite append_cons. cbn [split_char]. rewrite IH.
    destruct (Ascii.eqb x c); [reflexivity|].
    apply cons_head_app, split_char_nonempty.
Qed.

Lemma split_char_plain (s : string) : plain s = true -> split_char LF s = [s].
Proof.
  induction s as [|x s IH]; [reflexivity|]. cbn [plain split_char].
  rewrite !andb_true_iff, !negb_true_iff. intros [[_ E] H].
  rewrite E, (IH H). reflexivity.
Qed.

Lemma translate_plain_prefix (l t : string) :
  plain l = true ->
  translate_newlines false (l +:+ t) = l +:+ translate_newlines false t.
Proof.
  induction l as [|x l IH]; [reflexivity|]. cbn [plain].
  rewrite !andb_true_iff, !negb_true_iff. intros [[E1 E2] H].
  rewrite !append_cons. cbn [translate_newlines].
  rewrite E1, E2, (IH H). reflexivity.
Qed.




Lemma first_line_read (l : string) (l2 : list string) :
  plain l = true -> l2 <> [] ->
  file_lines (join nl (l :: l2)) = l :: file_lines (join nl l2).
Proof.
  intros Hl N2. rewrite join_cons by exact N2. unfold file_lines.
  rewrite translate_plain_prefix by exact Hl.
  change (nl +:+ join nl l2) with (String LF (join nl l2)).
  cbn [translate_newlines]. change (Ascii.eqb LF CR) with false.
  change (Ascii.eqb LF LF && false) with false. cbv iota.
  rewrite split_char_app, split_char_plain by exact Hl. reflexivity.
Qed.

(** *** The Validator *)


Lemma bind_ok {A B} (m : M A) (f : A -> M B) (w w1 : world) (a : A) :
  m w = (Ok a, w1) -> bind m f w = f a w1.
Proof. unfold bind. intros ->. reflexivity. Qed.

(** Printing the report never fails and leaves the files alone. *)
Lemma report_ok (r : validation_results) (w : world) :
  exists w', report r w = (Ok tt, w') /\ files w' = files w.
Proof.
  unfold report, bind, print, ret.
  destruct (valid r), (h1_found r), (blockquote_found r), (h2_count r <? 1);
    cbn; eexists; split; reflexivity.
Qed.

Lemma validate_reads (path data : string) (w : world) :
  files w !! path = Some data ->
  exists w',
    validate_llms_txt path w
    = (Ok (valid (check_lines (file_lines data)), check_lines (file_lines data)),
       w')
    /\ files w' = files w.
Proof.
  intros H. unfold validate_llms_txt.
  assert (R : read_file path w = (Ok (translate_newlines false data), w))
    by (unfold read_file; rewrite H; reflexivity).
  rewrite (bind_ok _ _ _ _ _ R).
  destruct (report_ok (check_lines (file_lines data)) w) as [w' [Hr Hf]].
  fold (file_lines data). rewrite (bind_ok _ _ _ _ _ Hr).
  exists w'. split; [reflexivity|exact Hf].
Qed.

Lemma existsb_startswith (p : string) (lines : list string) :
  existsb (startswith p) lines = true
  <-> exists l, List.In l lines /\ exists t, l = p +:+ t.
Proof.
  rewrite existsb_exists. split; intros [l [I H]]; exists l; split;
    try exact I; apply startswith_iff; exact H.
Qed.

(** C3: for every file content the Validator returns
    valid = h1_found AND blockquote_found AND h2_count >= 1, where h1_found
    holds iff a line starts with "# ", blockquote_found iff a line starts
    with "> ", and h2_count counts the lines starting with "## ";
    links_found takes no part, and a file without a line starting with
    "> " is reported invalid with blockquote_found false. *)
Theorem validator_verdict (w : world) (file_path data : string) :
  files w !! file_path = Some data ->
  exists (r : validation_results) (w' : world),
    validate_llms_txt file_path w = (Ok (valid r, r), w')
    /\ join nl (file_lines data) = translate_newlines false data
    /\ (h1_found r = true
        <-> exists l, List.In l (file_lines data) /\ exists t, l = "# " +:+ t)
    /\ (blockquote_found r = true
        <-> exists l, List.In l (file_lines data) /\ exists t, l = "> " +:+ t)
    /\ h2_count r
       = List.length (filter (startswith "## ") (file_lines data))
    /\ (forall l, List.In l (file_lines data) ->
                  startswith "## " l = true <-> exists t, l = "## " +:+ t)
    /\ valid r = h1_found r && blockquote_found r && (1 <=? h2_count r)
    /\ ((forall l, List.In l (file_lines data) -> forall t, l <> "> " +:+ t) ->
        valid r = false /\ blockquote_found r = false).
Proof.
  intros H. destruct (validate_reads _ _ _ H) as [w' [Hv _]].
  exists (check_lines (file_lines data)), w'.
  split; [exact Hv|]. split; [apply join_split_char|].
  cbn [check_lines h1_found blockquote_found h2_count valid].
  split; [apply existsb_startswith|]. split; [apply existsb_startswith|].
  split; [reflexivity|]. split; [intros l _; apply startswith_iff|].
  split; [reflexivity|]. intros N.
  assert (E : existsb (startswith "> ") (file_lines data) = false).
  { apply not_true_is_false. rewrite existsb_startswith.
    intros [l [I [t Ht]]]. exact (N l I t Ht). }
  rewrite E, andb_false_r. split; reflexivity.
Qed.

Lemma validator_verdict_witness :
  files no_summary_world !! "llms.txt" = Some no_summary_file
  /\ exists (r : validation_results) (w' : world),
       validate_llms_txt "llms.txt" no_summary_world = (Ok (valid r, r), w')
       /\ valid r = false /\ blockquote_found r = false
       /\ links_found r = true.
Proof.
  split; [reflexivity|].
  destruct (validator_verdict no_summary_world "llms.txt" no_summary_file
              eq_refl) as (r & w' & Hv & _ & _ & _ & _ & _ & _ & Hn).
  exists r, w'. split; [exact Hv|].
  assert (N : valid r = false /\ blockquote_found r = false).
  { apply Hn. intros l I t. vm_compute in I.
    repeat (destruct I as [<-|I]; [rewrite !append_cons; discriminate|]).
    destruct I. }
  split; [apply N|]. split; [apply N|].
  unfold validate_llms_txt, bind, read_file in Hv. simpl in Hv.
  injection Hv as _ <- _. reflexivity.
Defined.

(** *** The Fetcher *)



Section Fetch.

Variable requests_get : string -> response + exn.

(** The statuses on which [raise_for_status] raises. *)
Lemma raise_for_status_cases (r : response) (w : world) :
  if (400 <=? status_code r) && (status_code r <? 600)
  then exists e, raise_for_status r w = (Raised (RequestException HTTPError e), w)
  else raise_for_status r w = (Ok tt, w).
Proof.
  unfold raise_for_status, raise, ret.
  destruct (400 <=? status_code r) eqn:E4;
    destruct (status_code r <? 500) eqn:E5;
    destruct (status_code r <? 600) eqn:E6;
    destruct (500 <=? status_code r) eqn:E7; cbn;
    try reflexivity; try (eexists; reflexivity);
    exfalso;
    rewrite ?Nat.leb_le, ?Nat.leb_gt, ?Nat.ltb_lt, ?Nat.ltb_ge in *; lia.
Qed.


(** C7: the three outcomes of the Fetcher.  A response whose status is no
    error status (below 400, or 600 and above: 304 and 100 among them)
    gives its body, with nothing printed; an error status (4xx or 5xx, on
    which [raise_for_status] raises) or a [RequestException] of
    [requests.get] gives the empty string after one "Error fetching" line;
    any other exception of [requests.get] leaves the Fetcher as it was
    raised, with nothing printed. *)
Theorem fetch_catches_request_exceptions (url : string) (w : world) :
  match requests_get url with
  | inl r =>
      if (400 <=? status_code r) && (status_code r <? 600)
      then exists e,
          fetch_web_content requests_get url w
          = (Ok "", {| files := files w;
                       stdout := stdout w
                         ++ ["Error fetching " +:+ url +:+ ": " +:+ e] |})
      else fetch_web_content requests_get url w = (Ok (text r), w)
  | inr (RequestException _ e) =>
      fetch_web_content requests_get url w
      = (Ok "", {| files := files w;
                   stdout := stdout w
                     ++ ["Error fetching " +:+ url +:+ ": " +:+ e] |})
  | inr other =>
      fetch_web_content requests_get url w = (Raised other, w)
  end.
Proof.
  unfold fetch_web_content, try_except_RequestException, get, bind.
  destruct (requests_get url) as [r|e].
  - pose proof (raise_for_status_cases r w) as H.
    change (ret r w) with (Ok r, w). cbv beta iota.
    destruct ((400 <=? status_code r) && (status_code r <? 600)).
    + destruct H as [e ->]. exists e. reflexivity.
    + rewrite H. reflexivity.
  - destruct e; reflexivity.
Qed.

End Fetch.

(** C7, refuted as stated: the Fetcher raises when [requests.get] raises an
    exception that is no [RequestException], as it does on a URL whose host
    urllib3 cannot parse; and a response with status 304 gives its body,
    although the status is not in the 2xx range. *)
Lemma fetch_can_raise :
  fetch_web_content net_unparsable "http://a..b/" empty_world
  = (Raised (OtherException "LocationParseError"
               "Failed to parse: 'a..b', label empty or too long"),
     empty_world)
  /\ fetch_web_content net_not_modified "https://www.openresponses.org/"
       empty_world
     = (Ok "cached page", empty_world).
Proof. split; reflexivity. Qed.

(** *** The Document Assembler *)


Lemma count_app {A} (f : A -> bool) (l1 l2 : list A) :
  List.length (filter f (l1 ++ l2))
  = List.length (filter f l1) + List.length (filter f l2).
Proof. rewrite filter_app, length_app. reflexivity. Qed.



Section Generate.

Variable requests_get : string -> response + exn.
Variable BeautifulSoup : string -> node.
Variable open_for_writing : string -> option exn.



End Generate.

(** A run whose output directory is missing raises what the opening of the
    file raises, after the fetch, and writes nothing. *)
Example run_in_missing_directory :
  generate_llms_txt_from_docs net_not_modified (fun _ => plain_page)
    open_in_missing_directory "docs" "missing/llms.txt" empty_world
  = (Raised (FileNotFoundError "missing/llms.txt"), empty_world).
Proof. vm_compute. reflexivity. Qed.

(** A run whose fetch raises outside [RequestException] ends there. *)
Example run_on_unparsable_url :
  generate_llms_txt_from_docs net_unparsable (fun _ => plain_page)
    open_succeeds "docs" "llms.txt" empty_world
  = (Raised (OtherException "LocationParseError"
               "Failed to parse: 'a..b', label empty or too long"),
     empty_world).
Proof. vm_compute. reflexivity. Qed.

Lemma nil_sections (key_info : key_info) :
  core_concepts key_info = [] -> endpoints key_info = [] ->
  parameters key_info = [] -> streaming_events key_info = [] ->
  llms_content (Some key_info) = title_lines ++ static_sections.
Proof.
  intros H1 H2 H3 H4.
  unfold llms_content, key_info_sections, core_concepts_section, api_section,
    streaming_events_section.
  rewrite H1, H2, H3, H4. reflexivity.
Qed.

(** C8: when all five lists of the Key Info Record are empty, the document
    is the fixed title and summary followed by the three fixed sections,
    and the Validator accepts the file written from it: exactly one line
    starting with "# ", a line starting with "> ", exactly three lines
    starting with "## ", valid = true. *)
Theorem empty_extraction_document_valid (key_info : key_info)
        (output_path : string) (w : world) :
  core_concepts key_info = [] -> endpoints key_info = [] ->
  parameters key_info = [] -> response_fields key_info = [] ->
  streaming_events key_info = [] ->
  let llms := llms_content (Some key_info) in
  let lines := file_lines (join nl llms) in
  llms = title_lines ++ resources_section ++ documentation_section
         ++ examples_section
  /\ List.length (filter (startswith "# ") lines) = 1
  /\ 1 <= List.length (filter (startswith "> ") lines)
  /\ List.length (filter (startswith "## ") lines) = 3
  /\ exists (r : validation_results) (w1 w2 : world),
       write_file output_path (join nl llms) w = (Ok tt, w1)
       /\ validate_llms_txt output_path w1 = (Ok (true, r), w2)
       /\ h1_found r = true /\ blockquote_found r = true
       /\ h2_count r = 3 /\ valid r = true.
Proof.
  intros H1 H2 H3 _ H4. cbv zeta. rewrite (nil_sections _ H1 H2 H3 H4).
  split; [reflexivity|].
  split; [vm_compute; reflexivity|].
  split; [vm_compute; lia|].
  split; [vm_compute; reflexivity|].
  set (doc := join nl (title_lines ++ static_sections)).
  set (w1 := {| files := <[output_path := doc]> (files w);
                stdout := stdout w |}).
  assert (Hl : files w1 !! output_path = Some doc)
    by (unfold w1; cbn [files]; apply lookup_insert_eq).
  destruct (validate_reads _ _ _ Hl) as (w2 & Hv & _).
  assert (E : check_lines (file_lines doc)
              = {| h1_found := true; blockquote_found := true; h2_count := 3;
                   links_found := true; valid := true |})
    by (vm_compute; reflexivity).
  rewrite E in Hv. cbn [valid] in Hv.
  eexists _, w1, w2. split; [reflexivity|]. split; [exact Hv|].
  repeat split.
Qed.

Lemma empty_extraction_document_valid_witness :
  let key_info := extract_key_info_from_content "Plain words, nothing else." in
  core_concepts key_info = [] /\ endpoints key_info = []
  /\ parameters key_info = [] /\ response_fields key_info = []
  /\ streaming_events key_info = []
  /\ llms_content (Some key_info)
     = title_lines ++ resources_section ++ documentation_section
       ++ examples_section.
Proof.
  cbv zeta.
  repeat (split; [vm_compute; reflexivity|]).
  apply (empty_extraction_document_valid
           (extract_key_info_from_content "Plain words, nothing else.")
           "llms.txt" empty_world); vm_compute; reflexivity.
Defined.

Lemma bullet_not_heading (x h : string) : bullet x <> "#" +:+ h.
Proof. unfold bullet. rewrite !append_cons. discriminate. Qed.

Lemma code_bullet_not_heading (x h : string) : code_bullet x <> "#" +:+ h.
Proof. unfold code_bullet. rewrite !append_cons. discriminate. Qed.

Lemma not_in_map_bullets (f : string -> string) (h : string) (l : list string) :
  (forall x, f x <> "#" +:+ h) -> ~ List.In ("#" +:+ h) (map f l).
Proof.
  intros N I. apply in_map_iff in I as [x [E _]]. exact (N x E).
Qed.

(** The heading of the streaming section is in no other part of the
    document. *)
Lemma streaming_heading_elsewhere (key_info : key_info) :
  ~ List.In "## Streaming Events"
      (title_lines ++ core_concepts_section key_info ++ api_section key_info)
  /\ ~ List.In "## Streaming Events" static_sections.
Proof.
  split.
  - intros I. apply in_app_or in I as [I|I].
    { vm_compute in I. repeat (destruct I as [I|I]; [discriminate|]).
      destruct I. }
    apply in_app_or in I as [I|I].
    + unfold core_concepts_section in I.
      destruct (is_nil (core_concepts key_info)); [destruct I|].
      cbn [app List.In] in I.
      destruct I as [I|[I|I]]; [discriminate|discriminate|].
      apply in_app_or in I as [I|[I|[]]]; [|discriminate].
      exact (not_in_map_bullets bullet _ _ (fun x => bullet_not_heading x _) I).
    + unfold api_section in I.
      destruct (is_nil (endpoints key_info) && is_nil (parameters key_info));
        [destruct I|].
      cbn [app List.In] in I.
      destruct I as [I|[I|I]]; [discriminate|discriminate|].
      apply in_app_or in I as [I|I].
      * destruct (is_nil (endpoints key_info)); [destruct I|].
        cbn [app List.In] in I.
        destruct I as [I|I]; [discriminate|].
        apply in_app_or in I as [I|[I|[]]]; [|discriminate].
        exact (not_in_map_bullets code_bullet _ _
                 (fun x => code_bullet_not_heading x _) I).
      * destruct (is_nil (parameters key_info)); [destruct I|].
        cbn [app List.In] in I.
        destruct I as [I|I]; [discriminate|].
        apply in_app_or in I as [I|[I|[]]]; [|discriminate].
        exact (not_in_map_bullets code_bullet _ _
                 (fun x => code_bullet_not_heading x _) I).
  - intros I. vm_compute in I.
    repeat (destruct I as [I|I]; [discriminate|]). destruct I.
Qed.

(** C4: for every Key Info Record the document has the line
    "## Streaming Events" iff streaming_events is not empty, and then the
    heading, a blank line, one bullet per event and a blank line stand just
    before the fixed sections; the Resources, Documentation and Examples
    sections with their fixed lines end every document, whatever was
    extracted and also when nothing was fetched. *)
Theorem streaming_section_iff_events (key_info : key_info) :
  (List.In "## Streaming Events" (llms_content (Some key_info))
   <-> streaming_events key_info <> [])
  /\ (exists before,
        llms_content (Some key_info)
        = before
          ++ (if is_nil (streaming_events key_info) then []
              else ["## Streaming Events"; ""]
                   ++ map code_bullet (streaming_events key_info) ++ [""])
          ++ resources_section ++ documentation_section ++ examples_section
        /\ ~ List.In "## Streaming Events" before)
  /\ (exists before,
        llms_content None
        = before ++ resources_section ++ documentation_section
          ++ examples_section
        /\ ~ List.In "## Streaming Events" before)
  /\ List.hd "" resources_section = "## Resources"
  /\ List.hd "" documentation_section = "## Documentation"
  /\ List.hd "" examples_section = "## Examples"
  /\ List.length resources_section = 8
  /\ List.length documentation_section = 9
  /\ List.length examples_section = 5.
Proof.
  destruct (streaming_heading_elsewhere key_info) as [N1 N2].
  assert (E : llms_content (Some key_info)
              = (title_lines ++ core_concepts_section key_info
                 ++ api_section key_info)
                ++ streaming_events_section key_info ++ static_sections).
  { unfold llms_content, key_info_sections. rewrite <- !app_assoc.
    reflexivity. }
  split; [|split; [|split]].
  - rewrite E. split.
    + intros I. apply in_app_or in I as [I|I]; [contradiction|].
      apply in_app_or in I as [I|I]; [|contradiction].
      unfold streaming_events_section in I.
      destruct (streaming_events key_info); [destruct I|discriminate].
    + intros N. apply in_or_app. right. apply in_or_app. left.
      unfold streaming_events_section.
      destruct (streaming_events key_info); [congruence|]. left. reflexivity.
  - eexists. split; [exact E|exact N1].
  - exists title_lines. split; [reflexivity|].
    intros I. vm_compute in I.
    repeat (destruct I as [I|I]; [discriminate|]). destruct I.
  - repeat split.
Qed.

(** C10: two Key Info Records that agree on core_concepts, endpoints,
    parameters and streaming_events give the same document lines, whatever
    their response_fields are. *)
Theorem document_ignores_response_fields (k1 k2 : key_info) :
  core_concepts k1 = core_concepts k2 ->
  endpoints k1 = endpoints k2 ->
  parameters k1 = parameters k2 ->
  streaming_events k1 = streaming_events k2 ->
  llms_content (Some k1) = llms_content (Some k2).
Proof.
  intros H1 H2 H3 H4.
  unfold llms_content, key_info_sections, core_concepts_section, api_section,
    streaming_events_section.
  rewrite H1, H2, H3, H4. reflexivity.
Qed.

Lemma document_ignores_response_fields_witness :
  response_fields (sample_key_info ["status"; "usage"])
  <> response_fields (sample_key_info [])
  /\ llms_content (Some (sample_key_info ["status"; "usage"]))
     = llms_content (Some (sample_key_info [])).
Proof.
  split; [discriminate|].
  apply (document_ignores_response_fields
           (sample_key_info ["status"; "usage"]) (sample_key_info []));
    reflexivity.
Defined.

(** *** Main-content extraction *)

Lemma substring_trans (a x u v : string) :
  (exists p q, x = p +:+ a +:+ q) -> (exists p q, u +:+ x +:+ v = p +:+ a +:+ q).
Proof.
  intros (p & q & ->). exists (u +:+ p), (q +:+ v).
  rewrite !append_assoc'. reflexivity.
Qed.

Lemma item_in_join (sep item : string) (l : list string) :
  List.In item l -> exists u v, join sep l = u +:+ item +:+ v.
Proof.
  induction l as [|x l IH]; [intros []|]. intros [->|I].
  - destruct l as [|y l].
    + exists "", "". rewrite append_empty_r. reflexivity.
    + exists "", (sep +:+ join sep (y :: l)). reflexivity.
  - destruct (IH I) as (u & v & E). destruct l as [|y l]; [destruct I|].
    rewrite join_cons by discriminate. rewrite E.
    exists (x +:+ sep +:+ u), v. rewrite !append_assoc'. reflexivity.
Qed.

Lemma content_class_iff (x : string) :
  content_class (Some x) = true <-> has_keyword x.
Proof.
  unfold content_class, has_keyword, content_keywords.
  rewrite andb_true_iff, !orb_true_iff, !contains_iff. split.
  - intros [_ [[[H|H]|H]|H]]; eexists; (split; [|exact H]); simpl; tauto.
  - intros (kw & I & a & b & ->). split.
    + destruct a; [|reflexivity].
      destruct I as [<-|[<-|[<-|[<-|[]]]]]; reflexivity.
    + destruct I as [<-|[<-|[<-|[<-|[]]]]]; eauto 7.
Qed.

Lemma has_keyword_in_join (item : string) (l : list string) :
  List.In item l -> has_keyword item -> has_keyword (join " " l).
Proof.
  intros I (kw & K & H). exists kw. split; [exact K|].
  destruct (item_in_join " " item l I) as (u & v & ->).
  apply substring_trans. exact H.
Qed.

(** The class test of [find_all]: the function is tried on every token and
    on the tokens joined, which comes to a test of the joined text. *)
Lemma class_matches_iff (v : option attr_value) :
  attr_matches content_class v = true
  <-> exists cls, v = Some cls /\ has_keyword (attr_text cls).
Proof.
  destruct v as [[s|l]|]; cbn [attr_matches].
  - rewrite content_class_iff. split.
    + intros H. eexists. split; [reflexivity|exact H].
    + intros (cls & E & H). injection E as <-. exact H.
  - rewrite orb_true_iff, existsb_exists, content_class_iff. split.
    + intros [(item & I & H)|H]; eexists; (split; [reflexivity|]).
      * apply content_class_iff in H. exact (has_keyword_in_join item l I H).
      * exact H.
    + intros (cls & E & H). injection E as <-. right. exact H.
  - split; [discriminate|]. intros (cls & E & _). discriminate.
Qed.

(** The first element that passes a test: the one with none before it. *)
Lemma head_filter_Some {A} (p : A -> bool) (l : list A) (b : A) :
  head (filter p l) = Some b
  <-> exists before after,
        l = before ++ b :: after
        /\ p b = true
        /\ Forall (fun d => p d = false) before.
Proof.
  induction l as [|x l IH]; cbn [filter].
  - split; [discriminate|]. intros (before & after & E & _).
    destruct before; discriminate.
  - destruct (p x) eqn:Px.
    + cbn [head]. split.
      * intros [= <-]. exists [], l. split; [reflexivity|].
        split; [exact Px|constructor].
      * intros (before & after & E & Pb & F).
        destruct before as [|y before].
        -- injection E as -> _. reflexivity.
        -- injection E as <- _. inversion F; congruence.
    + rewrite IH. split.
      * intros (before & after & -> & Pb & F).
        exists (x :: before), after. split; [reflexivity|].
        split; [exact Pb|]. constructor; assumption.
      * intros (before & after & E & Pb & F).
        destruct before as [|y before].
        -- injection E as -> _. congruence.
        -- injection E as <- ->. exists before, after.
           split; [reflexivity|]. split; [exact Pb|].
           inversion F; assumption.
Qed.

Lemma head_filter_None {A} (p : A -> bool) (l : list A) :
  head (filter p l) = None <-> Forall (fun d => p d = false) l.
Proof.
  induction l as [|x l IH]; cbn [filter].
  - split; [constructor|reflexivity].
  - destruct (p x) eqn:Px; cbn [head].
    + split; [discriminate|]. intros F. inversion F; congruence.
    + rewrite IH. split.
      * intros F. constructor; assumption.
      * intros F. inversion F; assumption.
Qed.

Lemma named_body (d : node) :
  is_named ["body"] d = true <-> exists attrs contents, d = Tag "body" attrs contents.
Proof.
  split.
  - destruct d as [t|t|name attrs contents]; try discriminate.
    cbn [is_named]. intros N. apply mem_iff in N as [<-|[]]. eauto.
  - intros (attrs & contents & ->). reflexivity.
Qed.

Lemma not_named_body (d : node) :
  is_named ["body"] d = false <-> not_body d.
Proof.
  unfold not_body. split.
  - intros N attrs contents ->. discriminate.
  - intros N. destruct (is_named ["body"] d) eqn:E; [|reflexivity].
    apply named_body in E as (attrs & contents & ->).
    exfalso. exact (N attrs contents eq_refl).
Qed.

Lemma not_named_body_all (l : list node) :
  Forall (fun d => is_named ["body"] d = false) l <-> Forall not_body l.
Proof.
  split; intros F; induction F; constructor; try assumption;
    apply not_named_body; assumption.
Qed.

(** The body of a page is its first descendant named body. *)
Lemma body_first (soup b : node) :
  body soup = Some b
  <-> exists before after attrs contents,
        descendants soup = before ++ b :: after
        /\ b = Tag "body" attrs contents
        /\ Forall not_body before.
Proof.
  unfold body. rewrite head_filter_Some. split.
  - intros (before & after & E & N & F).
    apply named_body in N as (attrs & contents & ->).
    exists before, after, attrs, contents.
    split; [exact E|]. split; [reflexivity|].
    apply not_named_body_all, F.
  - intros (before & after & attrs & contents & E & -> & F).
    exists before, after. split; [exact E|]. split; [reflexivity|].
    apply not_named_body_all, F.
Qed.

Lemma body_none (soup : node) :
  body soup = None <-> Forall not_body (descendants soup).
Proof.
  unfold body. rewrite head_filter_None. apply not_named_body_all.
Qed.

(** C6: the areas taken from a page are exactly its elements whose tag is
    main, article or div and whose class attribute contains "content",
    "main", "doc" or "page" as a substring (an element of class
    "main-content" is one of them).  Only when there is none, the body
    element is taken: the first element named body in document order, on
    a page with two bodies the first one; and the whole document when no
    element is named body. *)
Theorem content_areas_selection (soup : node) :
  let selected :=
    find_all ["main"; "article"; "div"] "class" content_class soup in
  (forall e : node,
     List.In e selected
     <-> List.In e (descendants soup)
         /\ exists name attrs contents,
              e = Tag name attrs contents
              /\ List.In name ["main"; "article"; "div"]
              /\ exists cls,
                   attrs !! "class" = Some cls
                   /\ exists kw,
                        List.In kw ["content"; "main"; "doc"; "page"]
                        /\ exists a b, attr_text cls = a +:+ kw +:+ b)
  /\ (selected <> [] -> content_areas soup = selected)
  /\ (forall (b : node) (before after : list node) attrs contents,
        selected = [] ->
        descendants soup = before ++ b :: after ->
        b = Tag "body" attrs contents ->
        Forall not_body before ->
        content_areas soup = [b])
  /\ (selected = [] ->
      Forall not_body (descendants soup) ->
      content_areas soup = [soup])
  /\ (forall b : node,
        body soup = Some b
        <-> exists before after attrs contents,
              descendants soup = before ++ b :: after
              /\ b = Tag "body" attrs contents
              /\ Forall not_body before)
  /\ (body soup = None <-> Forall not_body (descendants soup))
  /\ find_all ["main"; "article"; "div"] "class" content_class
       main_content_page = [main_content_div]
  /\ content_areas main_content_page = [main_content_div]
  /\ content_areas plain_page
     = [Tag "body" ∅ [Tag "main" ∅ [NavigableString "Hi"]]]
  /\ content_areas two_body_page = [Tag "body" ∅ [NavigableString "First"]]
  /\ content_areas bodyless_page = [bodyless_page].
Proof.
  cbv zeta. split; [|split; [|split; [|split; [|split; [|split]]]]].
  - intros e. unfold find_all. rewrite filter_In. split.
    + intros [I H]. split; [exact I|].
      destruct e as [t|t|name attrs contents]; try discriminate.
      apply andb_true_iff in H as [H1 H2].
      apply mem_iff in H1. apply class_matches_iff in H2 as (cls & E & H).
      exists name, attrs, contents. split; [reflexivity|].
      split; [exact H1|]. exists cls. split; [exact E|exact H].
    + intros [I (name & attrs & contents & -> & H1 & cls & E & H)].
      split; [exact I|]. apply andb_true_iff. split.
      * apply mem_iff, H1.
      * apply class_matches_iff. exists cls. split; [exact E|exact H].
  - unfold content_areas. intros N.
    destruct (find_all _ _ _ soup); [congruence|reflexivity].
  - intros b before after attrs contents S D B F.
    assert (Hb : body soup = Some b).
    { apply body_first. exists before, after, attrs, contents. auto. }
    unfold content_areas. rewrite S, Hb. reflexivity.
  - intros S F. apply body_none in F.
    unfold content_areas. rewrite S, F. reflexivity.
  - intros b. apply body_first.
  - apply body_none.
  - repeat split; vm_compute; reflexivity.
Qed.

(** ** Further properties of the script *)

(** *** What the lists of the Key Info Record can hold *)

Lemma in_firstn {A} (n : nat) (l : list A) (x : A) :
  List.In x (firstn n l) -> List.In x l.
Proof.
  intros I. rewrite <- (firstn_skipn n l). apply in_or_app. left. exact I.
Qed.

Lemma in_candidates (candidate : found -> option string) (ic : bool)
      (patterns : list regex) (content x : string) :
  List.In x (candidates candidate ic patterns content) ->
  exists pattern m,
    List.In pattern patterns
    /\ List.In m (findall ic pattern content)
    /\ candidate m = Some x.
Proof.
  unfold candidates. rewrite in_flat_map. intros (pattern & Hp & I).
  apply in_flat_map in I as (m & Hm & I).
  exists pattern, m. split; [exact Hp|]. split; [exact Hm|].
  destruct (candidate m); [destruct I as [->|[]]; reflexivity|destruct I].
Qed.

(** Every element of a harvested list passed the test of its loop on some
    match of some pattern of the loop. *)
Lemma in_harvest (candidate : found -> option string) (ic : bool)
      (patterns : list regex) (content x : string) (cap : nat) :
  List.In x (firstn cap (harvest (add_candidate candidate) ic patterns content)) ->
  exists pattern m,
    List.In pattern patterns
    /\ List.In m (findall ic pattern content)
    /\ candidate m = Some x.
Proof.
  intros I. apply in_firstn in I. rewrite harvest_first_seen in I.
  apply (proj1 (first_seen_In _ _)) in I. exact (in_candidates _ _ _ _ _ I).
Qed.

(** X8: The tests of the harvesting loops hold of everything in the record:
    a core concept is longer than 10 characters, a parameter is longer than
    2 characters and is no stop word whatever its case, a response field is
    longer than 2 characters. *)
Theorem key_info_elements_pass_tests (content : string) :
  let key_info := extract_key_info_from_content content in
  (forall c, List.In c (core_concepts key_info) -> 10 < String.length c)
  /\ (forall p, List.In p (parameters key_info) ->
                2 < String.length p
                /\ ~ List.In (lower p) param_stop_words)
  /\ (forall f, List.In f (response_fields key_info) -> 2 < String.length f).
Proof.
  cbv zeta. unfold extract_key_info_from_content.
  cbn [core_concepts parameters response_fields].
  unfold add_concept, add_param, add_field. split; [|split].
  - intros c I. apply in_harvest in I as (pattern & m & _ & _ & H).
    unfold concept_candidate in H.
    destruct (nonempty (strip (first_of m))); [|discriminate].
    destruct (10 <? String.length _) eqn:L; [|discriminate].
    injection H as <-. apply Nat.ltb_lt, L.
  - intros x I. apply in_harvest in I as (pattern & m & _ & _ & H).
    unfold param_candidate in H.
    destruct (nonempty _ && (2 <? String.length _) && negb (mem _ _)) eqn:T;
      [|discriminate].
    injection H as <-. apply andb_true_iff in T as [T N].
    apply andb_true_iff in T as [_ L]. split; [apply Nat.ltb_lt, L|].
    apply mem_false_iff, negb_true_iff, N.
  - intros f I. apply in_harvest in I as (pattern & m & _ & _ & H).
    unfold field_candidate in H. destruct m as [x|l]; [|discriminate].
    destruct (nonempty x && (2 <? String.length x)) eqn:T; [|discriminate].
    injection H as <-. apply andb_true_iff in T as [_ L].
    apply Nat.ltb_lt, L.
Qed.

(** *** The shape of events and endpoints *)

Lemma lit_matches_inv (p s : string) (caps : captures)
      (k : string -> captures -> option (string * captures))
      (res : string * captures) :
  rmatch false (lit p) s caps k = Some res ->
  exists t, s = p +:+ t /\ k t caps = Some res.
Proof.
  revert s; induction p as [|c p IH]; intros s.
  - intros H. exists s. split; [reflexivity|exact H].
  - assert (One : forall k',
              rmatch false (Chr (COne (ALit c))) s caps k' = Some res ->
              exists s', s = String c s' /\ k' s' caps = Some res).
    { intros k'. cbn [rmatch cmatch atom_match].
      destruct s as [|x s]; [discriminate|].
      destruct (Ascii.eqb_spec c x) as [<-|]; [|discriminate].
      intros H. exists s. split; [reflexivity|exact H]. }
    destruct p as [|d p].
    + intros H. destruct (One _ H) as (s' & -> & H'). exists s'.
      split; [reflexivity|exact H'].
    + change (lit (String c (String d p)))
        with (Seq (Chr (COne (ALit c))) (lit (String d p))).
      intros H.
      change (rmatch false (Chr (COne (ALit c))) s caps
                (fun s1 c1 => rmatch false (lit (String d p)) s1 c1 k)
              = Some res) in H.
      destruct (One _ H) as (s' & -> & H').
      destruct (IH _ H') as (t & -> & Ht). exists t.
      split; [reflexivity|exact Ht].
Qed.

(** What a greedy repetition took is a run of accepted characters of at
    least the least length. *)
Lemma rep_greedy_inv {T} (ok : ascii -> bool) (k : string -> option T)
      (s : string) (min : nat) (res : T) :
  rep_greedy ok min s k = Some res ->
  exists w s1,
    s = w +:+ s1 /\ all_chars ok w = true /\ min <= String.length w
    /\ k s1 = Some res.
Proof.
  revert min; induction s as [|x s IH]; intros min; cbn [rep_greedy].
  - destruct min; [|discriminate]. intros H. exists "", "".
    repeat split; [lia|exact H].
  - assert (Stop : match min with 0 => k (String x s) | S _ => None end
                   = Some res ->
                   exists w s1,
                     String x s = w +:+ s1 /\ all_chars ok w = true
                     /\ min <= String.length w /\ k s1 = Some res).
    { destruct min; [|discriminate]. intros H. exists "", (String x s).
      repeat split; [lia|exact H]. }
    destruct (ok x) eqn:Ox; [|exact Stop].
    destruct (rep_greedy ok (pred min) s k) as [r|] eqn:E; [|exact Stop].
    intros H. injection H as ->.
    destruct (IH _ E) as (w & s1 & -> & A & L & K).
    exists (String x w), s1. split; [reflexivity|].
    cbn [all_chars String.length]. rewrite Ox, A.
    split; [reflexivity|]. split; [lia|exact K].
Qed.

Lemma nonempty_of_length (w : string) : 1 <= String.length w -> w <> "".
Proof. destruct w; cbn; [lia|discriminate]. Qed.

(** A match of the event pattern has an event name as its group. *)
Lemma event_match_inv (adv : bool) (s : string) (n : nat) (caps : captures) :
  match_at false event_pattern adv s = Some (n, caps) ->
  exists e, event_name e /\ caps = [(1, e)].
Proof.
  unfold match_at.
  change event_pattern
    with (Seq (Chr (COne (ALit "`")))
              (Seq (Group 1 (Seq (lit "response.")
                                 (Rep true 1 (CAnyOf [AWord; ALit "_"]))))
                   (Chr (COne (ALit "`"))))).
  cbn [rmatch]. destruct s as [|x s]; [discriminate|].
  destruct (cmatch false (COne (ALit "`")) x); [|discriminate].
  destruct (rmatch false (lit "response.") s [] _) as [[sE cE]|] eqn:E;
    [|discriminate].
  intros H. injection H as <- <-.
  apply lit_matches_inv in E as (t & -> & E).
  apply rep_greedy_inv in E as (w & s1 & -> & A & L & K).
  destruct s1 as [|y s1]; [discriminate|].
  destruct (cmatch false (COne (ALit "`")) y); [|discriminate].
  destruct (adv && _) in K; [discriminate|]. injection K as <- <-.
  exists ("response." +:+ w). split.
  - exists w. split; [reflexivity|]. split; [apply nonempty_of_length, L|exact A].
  - rewrite <- append_assoc'. rewrite consumed_prefix. reflexivity.
Qed.

(** Every item a scan gives to [findall] comes from a match of the pattern
    at some place of the subject. *)
Lemma in_hits (ic : bool) (r : regex) (f : found) (s : string) (skip : nat) :
  List.In f (hits r (scan ic r skip s)) ->
  exists adv s' n caps text,
    match_at ic r adv s' = Some (n, caps) /\ f = found_of r text caps.
Proof.
  revert skip; induction s as [|x s IH]; intros skip.
  - destruct skip; cbn [scan]; [|intros []].
    destruct (match_at ic r false "") as [[[|n] caps]|] eqn:E;
      cbn [hits]; [| |intros []];
      (intros [<-|[]]; do 5 eexists; split; [exact E|reflexivity]).
  - destruct skip as [|m]; cbn [scan]; [|apply IH].
    destruct (match_at ic r false (String x s)) as [[[|n] caps]|] eqn:E;
      cbn [hits].
    + intros [<-|I].
      { do 5 eexists. split; [exact E|reflexivity]. }
      destruct (match_at ic r true (String x s)) as [[[|n'] caps']|] eqn:E';
        cbn [hits] in I; try exact (IH _ I).
      destruct I as [<-|I]; [|exact (IH _ I)].
      do 5 eexists. split; [exact E'|reflexivity].
    + intros [<-|I]; [|exact (IH _ I)].
      do 5 eexists. split; [exact E|reflexivity].
    + apply IH.
Qed.

(** X9: Every streaming event of the record is [response.] followed by at
    least one letter, digit or underscore. *)
Theorem streaming_events_are_event_names (content : string) :
  Forall event_name (streaming_events (extract_key_info_from_content content)).
Proof.
  apply Forall_forall. intros e I.
  unfold extract_key_info_from_content in I. cbn [streaming_events] in I.
  unfold add_event in I.
  apply in_harvest in I as (pattern & m & [<-|[]] & Hm & H).
  apply in_hits in Hm as (adv & s' & n & caps & text & M & ->).
  apply event_match_inv in M as (e' & He & ->).
  change (found_of event_pattern text [(1, e')]) with (FStr e') in H.
  injection H as <-. exact He.
Qed.

Lemma alt_inv (r1 r2 : regex) (s : string) (caps : captures)
      (k : string -> captures -> option (string * captures))
      (res : string * captures) :
  rmatch false (Alt r1 r2) s caps k = Some res ->
  rmatch false r1 s caps k = Some res \/ rmatch false r2 s caps k = Some res.
Proof.
  cbn [rmatch]. destruct (rmatch false r1 s caps k); [left|right]; exact H.
Qed.

(** A match of the endpoint pattern: a method in the first group, a path
    in the second. *)
Lemma endpoint_match_inv (adv : bool) (s : string) (n : nat) (caps : captures) :
  match_at false endpoint_re adv s = Some (n, caps) ->
  exists method path,
    caps = [(2, "/" +:+ path); (1, method)]
    /\ List.In method ["POST"; "GET"; "PUT"; "DELETE"]
    /\ path <> "" /\ all_chars is_path_char path = true.
Proof.
  unfold match_at.
  change endpoint_re
    with (Seq (Group 1 (Alt (lit "POST")
                            (Alt (lit "GET") (Alt (lit "PUT") (lit "DELETE")))))
              (Seq (Rep true 1 (COne ASpace))
                   (Group 2 (Seq (lit "/")
                                 (Rep true 1 (CAnyOf [AWord; ALit "/";
                                                      ALit "-"])))))).
  destruct (rmatch false _ s [] _) as [[sE cE]|] eqn:E; [|discriminate].
  intros H. injection H as <- <-.
  cbn [rmatch] in E.
  assert (M : exists method t,
            List.In method ["POST"; "GET"; "PUT"; "DELETE"]
            /\ s = method +:+ t
            /\ rep_greedy (cmatch false (COne ASpace)) 1 t
                 (fun s1 =>
                    rmatch false (lit "/") s1 [(1, consumed s t)]
                      (fun s2 c2 =>
                         rep_greedy
                           (cmatch false (CAnyOf [AWord; ALit "/"; ALit "-"]))
                           1 s2
                           (fun s3 =>
                              (fun s4 c4 =>
                                 if adv && (String.length s4 =? String.length s)
                                 then None else Some (s4, c4))
                                s3 ((2, consumed s1 s3) :: c2))))
               = Some (sE, cE)).
  { destruct (rmatch false (lit "POST") s [] _) as [r|] eqn:E1.
    { injection E as ->. apply lit_matches_inv in E1 as (t & -> & E1).
      exists "POST", t. split; [simpl; tauto|]. split; [reflexivity|exact E1]. }
    destruct (rmatch false (lit "GET") s [] _) as [r|] eqn:E2.
    { injection E as ->. apply lit_matches_inv in E2 as (t & -> & E2).
      exists "GET", t. split; [simpl; tauto|]. split; [reflexivity|exact E2]. }
    destruct (rmatch false (lit "PUT") s [] _) as [r|] eqn:E3.
    { injection E as ->. apply lit_matches_inv in E3 as (t & -> & E3).
      exists "PUT", t. split; [simpl; tauto|]. split; [reflexivity|exact E3]. }
    apply lit_matches_inv in E as (t & -> & E).
    exists "DELETE", t. split; [simpl; tauto|]. split; [reflexivity|exact E]. }
  destruct M as (method & t & Hm & -> & R).
  rewrite consumed_prefix in R.
  apply rep_greedy_inv in R as (w & s1 & -> & _ & _ & K).
  apply lit_matches_inv in K as (s2 & -> & K).
  apply rep_greedy_inv in K as (path & s3 & -> & A & L & K).
  cbv beta in K. destruct (adv && _) in K; [discriminate|].
  injection K as <- <-.
  exists method, path. split.
  - rewrite <- append_assoc'. rewrite consumed_prefix. reflexivity.
  - split; [exact Hm|]. split; [apply nonempty_of_length, L|exact A].
Qed.

(** X10: Every endpoint of the record is one of the four methods, a blank and a
    path that starts with a slash and goes on with at least one letter,
    digit, underscore, slash or hyphen. *)
Theorem endpoints_have_method_and_path (content : string) :
  Forall endpoint_shape (endpoints (extract_key_info_from_content content)).
Proof.
  apply Forall_forall. intros e I.
  unfold extract_key_info_from_content in I. cbn [endpoints] in I.
  unfold add_endpoint in I.
  apply in_harvest in I as (pattern & m & [<-|[]] & Hm & H).
  apply in_hits in Hm as (adv & s' & n & caps & text & M & ->).
  apply endpoint_match_inv in M as (method & path & -> & Im & Np & Ap).
  change (found_of endpoint_re text [(2, "/" +:+ path); (1, method)])
    with (FTuple [method; "/" +:+ path]) in H.
  cbn [endpoint_candidate] in H. injection H as <-.
  exists method, path. split; [|split; [exact Im|split; [exact Np|exact Ap]]].
  rewrite (append_cons " " "" ("/" +:+ path)), append_empty_l.
  reflexivity.
Qed.

(** *** The headings of the document *)

Lemma startswith_bullet (p x : string) (f : string -> string) :
  (forall y, startswith p (f y) = false) ->
  forall l, filter (startswith p) (map f l) = [].
Proof.
  intros N. induction l as [|y l IH]; [reflexivity|].
  cbn [map filter]. rewrite N. exact IH.
Qed.

Lemma bullet_no_heading (x : string) :
  startswith "## " (bullet x) = false
  /\ startswith "### " (bullet x) = false
  /\ startswith "## " (code_bullet x) = false
  /\ startswith "### " (code_bullet x) = false.
Proof.
  unfold bullet, code_bullet. rewrite !append_cons. repeat split.
Qed.

(** X11: The document has three H2 headings for its fixed sections and one
    more for each group that is written: the core concepts when there are
    any, the API when there is an endpoint or a parameter, the streaming
    events when there are any.  It has an H3 heading for the endpoints and
    one for the parameters, when there are any.  No list element adds a
    heading, whatever text it holds. *)
Theorem document_heading_counts (key_info : key_info) :
  List.length (filter (startswith "## ") (llms_content (Some key_info)))
  = 3 + present (core_concepts key_info)
    + present (endpoints key_info ++ parameters key_info)
    + present (streaming_events key_info)
  /\ List.length (filter (startswith "### ") (llms_content (Some key_info)))
     = present (endpoints key_info) + present (parameters key_info)
  /\ List.length (filter (startswith "## ") (llms_content None)) = 3
  /\ List.length (filter (startswith "# ") (llms_content (Some key_info))) = 1.
Proof.
  assert (B2 : forall l, filter (startswith "## ") (map bullet l) = []).
  { apply (startswith_bullet _ ""). intros y. apply bullet_no_heading. }
  assert (C2 : forall l, filter (startswith "## ") (map code_bullet l) = []).
  { apply (startswith_bullet _ ""). intros y. apply bullet_no_heading. }
  assert (B3 : forall l, filter (startswith "### ") (map bullet l) = []).
  { apply (startswith_bullet _ ""). intros y. apply bullet_no_heading. }
  assert (C3 : forall l, filter (startswith "### ") (map code_bullet l) = []).
  { apply (startswith_bullet _ ""). intros y. apply bullet_no_heading. }
  assert (B1 : forall l, filter (startswith "# ") (map bullet l) = []).
  { apply (startswith_bullet _ ""). intros y. unfold bullet.
    rewrite !append_cons. reflexivity. }
  assert (C1 : forall l, filter (startswith "# ") (map code_bullet l) = []).
  { apply (startswith_bullet _ ""). intros y. unfold code_bullet.
    rewrite !append_cons. reflexivity. }
  unfold llms_content, key_info_sections, core_concepts_section, api_section,
    streaming_events_section, present.
  destruct (core_concepts key_info) as [|c cs];
    destruct (endpoints key_info) as [|e es];
    destruct (parameters key_info) as [|q qs];
    destruct (streaming_events key_info) as [|v vs];
    cbn [is_nil andb];
    rewrite ?count_app, ?B1, ?C1, ?B2, ?C2, ?B3, ?C3;
    repeat split; reflexivity.
Qed.

(** *** Writing the document and reading it back *)

Lemma translate_plain (l : string) :
  plain l = true -> translate_newlines false l = l.
Proof.
  intros H. rewrite <- (append_empty_r l) at 1.
  rewrite (translate_plain_prefix l "" H). apply append_empty_r.
Qed.

(** Plain lines joined by line feeds are read back as they are. *)
Lemma file_lines_join (lines : list string) :
  Forall (fun l => plain l = true) lines -> lines <> [] ->
  file_lines (join nl lines) = lines.
Proof.
  intros F. induction F as [|l rest Hl F IH]; [congruence|]. intros _.
  destruct rest as [|l2 rest].
  - cbn [join]. unfold file_lines. rewrite (translate_plain l Hl).
    apply split_char_plain, Hl.
  - rewrite first_line_read by (exact Hl || discriminate).
    rewrite IH by discriminate. reflexivity.
Qed.

(** X12: When the lines written hold no CR and no LF, the Validator judges
    exactly these lines: the file written as the lines joined by line feeds
    is read back as the same lines, and the verdict is that of the lines. *)
Theorem written_lines_are_validated (w : world) (path : string)
        (lines : list string) :
  Forall (fun l => plain l = true) lines -> lines <> [] ->
  exists w1 w2,
    write_file path (join nl lines) w = (Ok tt, w1)
    /\ file_lines (join nl lines) = lines
    /\ validate_llms_txt path w1
       = (Ok (valid (check_lines lines), check_lines lines), w2)
    /\ files w2 = <[path := join nl lines]> (files w).
Proof.
  intros F N.
  set (w1 := {| files := <[path := join nl lines]> (files w);
                stdout := stdout w |}).
  assert (Hl : files w1 !! path = Some (join nl lines))
    by (unfold w1; cbn [files]; apply lookup_insert_eq).
  destruct (validate_reads _ _ _ Hl) as (w2 & Hv & Hf).
  rewrite (file_lines_join lines F N) in Hv.
  exists w1, w2. split; [reflexivity|].
  split; [apply file_lines_join; assumption|]. split; [exact Hv|].
  rewrite Hf. reflexivity.
Qed.

Lemma written_lines_are_validated_witness :
  exists w1 w2,
    write_file "llms.txt" (join nl sample_lines) empty_world = (Ok tt, w1)
    /\ file_lines (join nl sample_lines) = sample_lines
    /\ validate_llms_txt "llms.txt" w1
       = (Ok (valid (check_lines sample_lines), check_lines sample_lines), w2)
    /\ files w2 = <["llms.txt" := join nl sample_lines]> (files empty_world).
Proof.
  apply (written_lines_are_validated empty_world "llms.txt" sample_lines).
  - repeat constructor.
  - discriminate.
Defined.

(** *** Removing script and style elements *)

Lemma decompose_tag (names : list string) (name : string)
      (attrs : gmap string attr_value) (contents : list node) :
  decompose_all names (Tag name attrs contents)
  = Tag name attrs (decompose_contents names contents).
Proof. reflexivity. Qed.

Lemma decompose_contents_cons (names : list string) (c : node)
      (rest : list node) :
  decompose_contents names (c :: rest)
  = if is_named names c then decompose_contents names rest
    else decompose_all names c :: decompose_contents names rest.
Proof. reflexivity. Qed.

Lemma decompose_keeps_name (names : list string) (n : node) :
  is_named names (decompose_all names n) = is_named names n.
Proof. destruct n; reflexivity. Qed.

Lemma descendants_tag (name : string) (attrs : gmap string attr_value)
      (contents : list node) :
  descendants (Tag name attrs contents)
  = flat_map (fun c => c :: descendants c) contents.
Proof. reflexivity. Qed.

(** After [decompose_all] no element of the removed names is left, at any
    depth. *)
Lemma decompose_removes (names : list string) (n : node) :
  forall d, List.In d (descendants (decompose_all names n)) ->
            is_named names d = false.
Proof.
  induction n as [s|s|name attrs contents IH] using node_induction;
    [intros d []|intros d []|].
  rewrite decompose_tag, descendants_tag.
  induction IH as [|c rest Hc _ IHrest]; [intros d []|].
  rewrite decompose_contents_cons. intros d.
  destruct (is_named names c) eqn:Nc; [apply IHrest|].
  cbn [flat_map]. intros [<-|I].
  - rewrite decompose_keeps_name. exact Nc.
  - apply in_app_or in I as [I|I]; [exact (Hc d I)|exact (IHrest d I)].
Qed.

(** [decompose_all] invents nothing: the strings left are strings of the
    page. *)
Lemma decompose_strings (names : list string) (n : node) :
  forall s, List.In s (strings_of (decompose_all names n)) ->
            List.In s (strings_of n).
Proof.
  unfold strings_of.
  induction n as [s|s|name attrs contents IH] using node_induction;
    [intros s' []|intros s' []|].
  rewrite decompose_tag, !descendants_tag.
  induction IH as [|c rest Hc _ IHrest]; [intros s' []|].
  rewrite decompose_contents_cons. intros s'.
  cbn [flat_map]. rewrite (flat_map_app _ (c :: descendants c)).
  intros I. apply in_or_app.
  destruct (is_named names c) eqn:Nc; [right; exact (IHrest s' I)|].
  cbn [flat_map] in I. rewrite flat_map_app in I.
  apply in_app_or in I as [I|I]; [left|right; exact (IHrest s' I)].
  cbn [flat_map app] in I |- *. apply in_app_or in I as [I|I].
  - apply in_or_app. left. destruct c; exact I.
  - apply in_or_app. right. exact (Hc s' I).
Qed.

(** A page without elements of the removed names is left as it is. *)
Lemma decompose_nothing (names : list string) (n : node) :
  (forall d, List.In d (descendants n) -> is_named names d = false) ->
  decompose_all names n = n.
Proof.
  induction n as [s|s|name attrs contents IH] using node_induction;
    [reflexivity|reflexivity|].
  rewrite decompose_tag, descendants_tag. intros H. f_equal.
  induction IH as [|c rest Hc _ IHrest]; [reflexivity|].
  rewrite decompose_contents_cons.
  rewrite (H c) by (cbn [flat_map]; left; reflexivity).
  rewrite Hc, IHrest; [reflexivity| |].
  - intros d I. apply H. cbn [flat_map]. right. apply in_or_app. right. exact I.
  - intros d I. apply H. cbn [flat_map]. right. apply in_or_app. left. exact I.
Qed.

(** *** Substitution in a text with marked places *)

Lemma all_chars_impl (P Q : ascii -> bool) (s : string) :
  (forall c, P c = true -> Q c = true) ->
  all_chars P s = true -> all_chars Q s = true.
Proof.
  intros I. induction s as [|c s IH]; [reflexivity|]. cbn [all_chars].
  rewrite !andb_true_iff. intros [Hc Hs]. split; [apply I, Hc|apply IH, Hs].
Qed.

Lemma all_chars_app (P : ascii -> bool) (a b : string) :
  all_chars P (a +:+ b) = all_chars P a && all_chars P b.
Proof.
  induction a as [|c a IH]; [reflexivity|].
  rewrite append_cons. cbn [all_chars]. rewrite IH, andb_assoc. reflexivity.
Qed.

Section Marked.

Variable r : regex.
Variable tpl : list repl_item.
Variable quiet : ascii -> bool.

(** No match starts at a quiet character, nor at the end of the text. *)
Hypothesis quiet_no_match :
  forall adv x t, quiet x = true -> match_at false r adv (String x t) = None.
Hypothesis end_no_match : match_at false r false "" = None.

Lemma sub_quiet_prefix (sep t : string) :
  all_chars quiet sep = true ->
  sub false r tpl (sep +:+ t) = sep +:+ sub false r tpl t.
Proof.
  unfold sub. induction sep as [|x sep IH]; [reflexivity|]. cbn [all_chars].
  rewrite andb_true_iff. intros [Hx Hs]. rewrite !append_cons. cbn [scan].
  rewrite (quiet_no_match false x _ Hx). cbn [render]. rewrite (IH Hs).
  reflexivity.
Qed.

Lemma sub_quiet (tail : string) :
  all_chars quiet tail = true -> sub false r tpl tail = tail.
Proof.
  intros H. rewrite <- (append_empty_r tail) at 1.
  rewrite (sub_quiet_prefix tail "" H). unfold sub. cbn [scan].
  rewrite end_no_match. cbn [render]. apply append_empty_r.
Qed.

Lemma sub_at_match (markup rest : string) (caps : captures) :
  markup <> "" ->
  match_at false r false (markup +:+ rest) = Some (String.length markup, caps) ->
  sub false r tpl (markup +:+ rest) = expand tpl caps +:+ sub false r tpl rest.
Proof.
  intros N M. unfold sub. destruct markup as [|x markup]; [congruence|].
  rewrite append_cons in M |- *. cbn [scan]. rewrite M.
  cbn [String.length render]. rewrite scan_skip. reflexivity.
Qed.

(** A substitution over a text with marked places replaces every piece of
    markup and leaves the stretches between them. *)
Lemma sub_marked_text (items : list (string * string * string))
      (tail : string) :
  Forall (item_matched r tpl quiet) items -> all_chars quiet tail = true ->
  sub false r tpl (marked_text items tail) = replaced_text items tail.
Proof.
  intros F T. induction F as [|[[sep markup] replacement] items H F IH];
    cbn [marked_text replaced_text].
  - apply sub_quiet, T.
  - destruct H as (Hs & N & M). destruct (M (marked_text items tail))
      as (caps & Hm & <-).
    rewrite (sub_quiet_prefix _ _ Hs), (sub_at_match _ _ _ N Hm), IH.
    reflexivity.
Qed.

End Marked.

(** *** The cleaner on links and tags *)

Lemma lacks_is_not (chars : string) (c0 : ascii) (s : string) :
  List.In c0 (list_ascii_of_string chars) ->
  lacks chars s = true -> all_chars (is_not c0) s = true.
Proof.
  intros I. apply all_chars_impl. intros c. unfold is_not.
  rewrite !negb_true_iff. intros H.
  destruct (Ascii.eqb_spec c c0) as [->|]; [|reflexivity].
  rewrite <- H. symmetry. apply existsb_exists. exists c0.
  split; [exact I|apply Ascii.eqb_refl].
Qed.

Lemma lacks_app (chars a b : string) :
  lacks chars (a +:+ b) = lacks chars a && lacks chars b.
Proof. apply all_chars_app. Qed.

Lemma none_of_lacks (chars s : string) :
  lacks chars s = true -> all_chars (cmatch false (none_of chars)) s = true.
Proof.
  apply all_chars_impl. intros c H. unfold none_of. cbn [cmatch].
  rewrite <- H. f_equal. clear H.
  induction (list_ascii_of_string chars) as [|a l IH]; [reflexivity|].
  cbn [map existsb atom_match]. rewrite IH, Ascii.eqb_sym. reflexivity.
Qed.

Lemma link_quiet (adv : bool) (x : ascii) (t : string) :
  is_not "[" x = true -> match_at false link_re adv (String x t) = None.
Proof.
  unfold is_not, match_at. rewrite negb_true_iff, Ascii.eqb_sym. intros H.
  change link_re
    with (Seq (Chr (COne (ALit "[")))
              (seqs [Group 1 (plus (none_of "]")); lit "](";
                     plus (none_of ")"); lit ")"])).
  cbn [rmatch cmatch atom_match]. rewrite H. reflexivity.
Qed.

Lemma tag_quiet (adv : bool) (x : ascii) (t : string) :
  is_not "<" x = true -> match_at false tag_re adv (String x t) = None.
Proof.
  unfold is_not, match_at. rewrite negb_true_iff, Ascii.eqb_sym. intros H.
  change tag_re
    with (Seq (Chr (COne (ALit "<")))
              (Seq (Rep true 1 (none_of ">")) (Chr (COne (ALit ">"))))).
  cbn [rmatch cmatch atom_match]. rewrite H. reflexivity.
Qed.

(** The image rule needs a bracket: without one it changes nothing. *)
Lemma image_rule_without_bracket (s : string) :
  all_chars (is_not "[") s = true -> sub false image_re [] s = s.
Proof.
  intros H. apply sub_no_match. unfold has_match.
  induction s as [|x s IH]; [reflexivity|].
  cbn [all_chars] in H. apply andb_true_iff in H as [_ Hs].
  assert (M : match_at false image_re false (String x s) = None).
  { unfold match_at.
    change image_re
      with (Seq (Seq (Chr (COne (ALit "!"))) (Chr (COne (ALit "["))))
                (seqs [Group 1 (star (none_of "]")); lit "](";
                       plus (none_of ")"); lit ")"])).
    cbn [rmatch cmatch atom_match].
    destruct (Ascii.eqb "!" x); [|reflexivity].
    destruct s as [|y s]; [reflexivity|].
    cbn [all_chars] in Hs. apply andb_true_iff in Hs as [Hy _].
    unfold is_not in Hy. rewrite negb_true_iff, Ascii.eqb_sym in Hy.
    rewrite Hy. reflexivity. }
  cbn [scan]. rewrite M. cbn [existsb is_hit orb]. exact (IH Hs).
Qed.

(** The link rule at a link: the whole link is matched and its text is the
    group. *)
Lemma link_match (text url rest : string) :
  text <> "" -> lacks "]" text = true ->
  url <> "" -> lacks ")" url = true ->
  match_at false link_re false
    (("[" +:+ text +:+ "](" +:+ url +:+ ")") +:+ rest)
  = Some (String.length ("[" +:+ text +:+ "](" +:+ url +:+ ")"), [(1, text)]).
Proof.
  intros Nt Lt Nu Lu. unfold match_at.
  change link_re
    with (Seq (Chr (COne (ALit "[")))
              (Seq (Group 1 (Rep true 1 (none_of "]")))
                   (Seq (lit "](")
                        (Seq (Rep true 1 (none_of ")"))
                             (Chr (COne (ALit ")"))))))).
  rewrite !append_assoc'. rewrite (append_cons "[" ""), append_empty_l.
  cbn [rmatch]. change (cmatch false (COne (ALit "[")) "[") with true.
  cbv iota.
  set (after_text := "](" +:+ url +:+ ")" +:+ rest).
  set (s := text +:+ after_text).
  assert (Ku : rmatch false (lit "](") after_text [(1, consumed s after_text)]
                 (fun s1 c1 =>
                    rep_greedy (cmatch false (none_of ")")) 1 s1
                      (fun s2 =>
                         rmatch false (Chr (COne (ALit ")"))) s2 c1
                           (fun s3 c3 =>
                              if false && (String.length s3
                                           =? String.length (String "[" s))
                              then None else Some (s3, c3))))
               = Some (rest, [(1, text)])).
  { unfold after_text. rewrite lit_matches.
    rewrite (append_cons ")" "" rest), append_empty_l.
    rewrite (rep_greedy_run _ _ ")" rest (rest, [(1, text)]) url).
    - reflexivity.
    - apply none_of_lacks, Lu.
    - reflexivity.
    - cbn [rmatch cmatch atom_match]. rewrite Ascii.eqb_refl. cbn [andb].
      unfold s. rewrite consumed_prefix. reflexivity.
    - destruct url; [congruence|cbn; lia]. }
  assert (Kt : rep_greedy (cmatch false (none_of "]")) 1 s
                 (fun s1 =>
                    rmatch false (lit "](") s1 [(1, consumed s s1)]
                      (fun s1' c1 =>
                         rep_greedy (cmatch false (none_of ")")) 1 s1'
                           (fun s2 =>
                              rmatch false (Chr (COne (ALit ")"))) s2 c1
                                (fun s3 c3 =>
                                   if false && (String.length s3
                                                =? String.length (String "[" s))
                                   then None else Some (s3, c3)))))
               = Some (rest, [(1, text)])).
  { refine (rep_greedy_run _ _ "]" ("(" +:+ url +:+ ")" +:+ rest) _ text
              _ _ _ 1 _).
    - apply none_of_lacks, Lt.
    - reflexivity.
    - exact Ku.
    - destruct text; [congruence|cbn; lia]. }
  cbn [rmatch] in Kt |- *. rewrite Kt.
  f_equal. f_equal. unfold s, after_text.
  cbn [String.length]. rewrite ?length_append. cbn [String.length]. lia.
Qed.

Lemma lacks_subset (chars1 chars2 s : string) :
  (forall c, List.In c (list_ascii_of_string chars2) ->
             List.In c (list_ascii_of_string chars1)) ->
  lacks chars1 s = true -> lacks chars2 s = true.
Proof.
  intros I. apply all_chars_impl. intros c. rewrite !negb_true_iff.
  intros H. apply not_true_is_false. intros E. apply existsb_exists in E
    as (x & Hx & E).
  assert (T : existsb (Ascii.eqb c) (list_ascii_of_string chars1) = true)
    by (apply existsb_exists; exists x; split; [apply I, Hx|exact E]).
  congruence.
Qed.

Lemma tag_match (body rest : string) :
  body <> "" -> lacks ">" body = true ->
  match_at false tag_re false (("<" +:+ body +:+ ">") +:+ rest)
  = Some (String.length ("<" +:+ body +:+ ">"), []).
Proof.
  intros Nb Lb. unfold match_at.
  change tag_re
    with (Seq (Chr (COne (ALit "<")))
              (Seq (Rep true 1 (none_of ">")) (Chr (COne (ALit ">"))))).
  rewrite !append_assoc'. rewrite (append_cons "<" ""), append_empty_l.
  cbn [rmatch]. change (cmatch false (COne (ALit "<")) "<") with true.
  cbv iota. change (">" +:+ rest) with (String ">" rest).
  rewrite (rep_greedy_run _ _ ">" rest (rest, ([] : captures)) body).
  - f_equal. f_equal. cbn [String.length]. rewrite ?length_append.
    cbn [String.length]. lia.
  - apply none_of_lacks, Lb.
  - reflexivity.
  - cbn [rmatch cmatch atom_match]. rewrite Ascii.eqb_refl. reflexivity.
  - destruct body; [congruence|cbn; lia].
Qed.

Lemma link_items_matched (items : list (string * string * string)) :
  Forall clean_link items ->
  Forall (item_matched link_re [RGroup 1] (is_not "[")) (map link_item items).
Proof.
  intros F. induction F as [|[[sep text] url] items H F IH]; constructor;
    [|exact IH].
  destruct H as (Hs & Nt & Lt & Nu & Lu). cbn [link_item item_matched].
  split; [apply (lacks_is_not "[<"); [simpl; tauto|exact Hs]|].
  split; [rewrite append_cons; discriminate|].
  intros rest. exists [(1, text)]. split.
  - apply link_match; try assumption.
    apply (lacks_subset "[]<"); [simpl; tauto|exact Lt].
  - cbn [expand fold_right group Nat.eqb]. apply append_empty_r.
Qed.

Lemma tag_items_matched (items : list (string * string)) :
  Forall clean_tag items ->
  Forall (item_matched tag_re [] (is_not "<")) (map tag_item items).
Proof.
  intros F. induction F as [|[sep body] items H F IH]; constructor;
    [|exact IH].
  destruct H as (Hs & Nb & Lb). cbn [tag_item item_matched].
  split; [apply (lacks_is_not "[<"); [simpl; tauto|exact Hs]|].
  split; [rewrite append_cons; discriminate|].
  intros rest. exists []. split; [|reflexivity].
  apply tag_match; [exact Nb|].
  apply (lacks_subset "[>"); [simpl; tauto|exact Lb].
Qed.

Lemma replaced_links_lack (items : list (string * string * string))
      (tail : string) :
  Forall clean_link items -> lacks "[<" tail = true ->
  lacks "[<" (replaced_text (map link_item items) tail) = true.
Proof.
  intros F T. induction F as [|[[sep text] url] items H F IH]; [exact T|].
  destruct H as (Hs & _ & Lt & _). cbn [map link_item replaced_text].
  rewrite !lacks_app, Hs, IH.
  rewrite (lacks_subset "[]<" "[<" text); [reflexivity|simpl; tauto|exact Lt].
Qed.

Lemma tagged_text_lacks_bracket (items : list (string * string))
      (tail : string) :
  Forall clean_tag items -> lacks "[<" tail = true ->
  lacks "[" (marked_text (map tag_item items) tail) = true.
Proof.
  intros F T. induction F as [|[sep body] items H F IH].
  - apply (lacks_subset "[<"); [simpl; tauto|exact T].
  - destruct H as (Hs & _ & Lb). cbn [map tag_item marked_text].
    rewrite !lacks_app, IH.
    rewrite (lacks_subset "[<" "[" sep); [|simpl; tauto|exact Hs].
    rewrite (lacks_subset "[>" "[" body); [reflexivity|simpl; tauto|exact Lb].
Qed.

Lemma replaced_tags_lack (items : list (string * string)) (tail : string) :
  Forall clean_tag items -> lacks "[<" tail = true ->
  lacks "[<" (replaced_text (map tag_item items) tail) = true.
Proof.
  intros F T. induction F as [|[sep body] items H F IH]; [exact T|].
  destruct H as (Hs & _). cbn [map tag_item replaced_text].
  rewrite !lacks_app, Hs, IH. reflexivity.
Qed.

(** X5: In a text whose only markup is links (a text in brackets without
    brackets or "<" in it, then a URL in parentheses without ")"), and
    without runs of blank lines, the cleaner replaces every link by its text
    and trims the result. *)
Theorem clean_replaces_links (items : list (string * string * string))
        (tail : string) :
  Forall clean_link items -> lacks "[<" tail = true ->
  has_match false blank_lines_re (marked_text (map link_item items) tail)
  = false ->
  clean_markdown_content (marked_text (map link_item items) tail)
  = strip (replaced_text (map link_item items) tail).
Proof.
  intros F T B. unfold clean_markdown_content.
  rewrite (sub_no_match _ _ _ _ B).
  rewrite (sub_marked_text link_re [RGroup 1] (is_not "[") link_quiet
             eq_refl _ _ (link_items_matched _ F)
             (lacks_is_not "[<" "[" _ ltac:(simpl; tauto) T)).
  pose proof (replaced_links_lack items tail F T) as L.
  rewrite image_rule_without_bracket
    by (apply (lacks_is_not "[<"); [simpl; tauto|exact L]).
  rewrite (sub_quiet tag_re [] (is_not "<") tag_quiet eq_refl _
             (lacks_is_not "[<" "<" _ ltac:(simpl; tauto) L)).
  reflexivity.
Qed.

Lemma clean_replaces_links_witness :
  clean_markdown_content "See [Docs](http://x) and [the API](http://y/z) here"
  = "See Docs and the API here".
Proof.
  apply (clean_replaces_links two_links " here").
  - repeat constructor; discriminate.
  - reflexivity.
  - vm_compute. reflexivity.
Defined.

(** X6: In a text whose only markup is tags (between "<" and ">", without ">"
    or brackets in them), and without runs of blank lines, the cleaner
    removes every tag and trims the result. *)
Theorem clean_removes_tags (items : list (string * string)) (tail : string) :
  Forall clean_tag items -> lacks "[<" tail = true ->
  has_match false blank_lines_re (marked_text (map tag_item items) tail)
  = false ->
  clean_markdown_content (marked_text (map tag_item items) tail)
  = strip (replaced_text (map tag_item items) tail).
Proof.
  intros F T B. unfold clean_markdown_content.
  rewrite (sub_no_match _ _ _ _ B).
  pose proof (tagged_text_lacks_bracket items tail F T) as L.
  rewrite (sub_quiet link_re [RGroup 1] (is_not "[") link_quiet eq_refl _
             (lacks_is_not "[" "[" _ ltac:(simpl; tauto) L)).
  rewrite image_rule_without_bracket
    by (apply (lacks_is_not "["); [simpl; tauto|exact L]).
  rewrite (sub_marked_text tag_re [] (is_not "<") tag_quiet eq_refl _ _
             (tag_items_matched _ F)
             (lacks_is_not "[<" "<" _ ltac:(simpl; tauto) T)).
  reflexivity.
Qed.

Lemma clean_removes_tags_witness :
  clean_markdown_content "Some <b>bold</b> text" = "Some bold text".
Proof.
  apply (clean_removes_tags two_tags " text").
  - repeat constructor; discriminate.
  - reflexivity.
  - vm_compute. reflexivity.
Defined.

(** X4: The cleaner only takes away: its result is never longer than its
    input, and it is shorter whenever a rule matches in the input. *)
Theorem clean_never_lengthens (s : string) :
  String.length (clean_markdown_content s) <= String.length s
  /\ (if rule_free s then True
      else String.length (clean_markdown_content s) < String.length s).
Proof.
  split.
  - unfold clean_markdown_content.
    set (t1 := sub false blank_lines_re [RLit (nl +:+ nl)] s).
    set (t2 := sub false link_re [RGroup 1] t1).
    set (t3 := sub false image_re [] t2).
    set (t4 := sub false tag_re [] t3).
    pose proof (proj1 (sub_length false blank_lines_re [RLit (nl +:+ nl)] s
                         blank_rule_shrinking)) as L1.
    pose proof (proj1 (sub_length false link_re [RGroup 1] t1
                         link_rule_shrinking)) as L2.
    pose proof (proj1 (sub_length false image_re [] t2 image_rule_shrinking))
      as L3.
    pose proof (proj1 (sub_length false tag_re [] t3 tag_rule_shrinking))
      as L4.
    pose proof (strip_length t4) as L5.
    fold t1 in L1. fold t2 in L2. fold t3 in L3. fold t4 in L4. lia.
  - destruct (rule_free s) eqn:R; [exact I|apply clean_shortens, R].
Qed.

(** *** The text taken from a page *)

Lemma visible_strings_tag (names : list string) (name : string)
      (attrs : gmap string attr_value) (contents : list node) :
  visible_strings names (Tag name attrs contents)
  = flat_map (fun c => if is_named names c then []
                       else own_string c ++ visible_strings names c)
             contents.
Proof.
  cbn [visible_strings].
  induction contents as [|c rest IH]; [reflexivity|].
  cbn [flat_map]. rewrite IH. reflexivity.
Qed.

Lemma own_string_decompose (names : list string) (c : node) :
  own_string (decompose_all names c) = own_string c.
Proof. destruct c; reflexivity. Qed.

(** The strings left after the removal are the strings outside the removed
    elements. *)
Lemma decompose_visible (names : list string) (n : node) :
  strings_of (decompose_all names n) = visible_strings names n.
Proof.
  unfold strings_of.
  induction n as [s|s|name attrs contents IH] using node_induction;
    [reflexivity|reflexivity|].
  rewrite decompose_tag, descendants_tag, visible_strings_tag.
  induction IH as [|c rest Hc _ IHrest]; [reflexivity|].
  rewrite decompose_contents_cons. cbn [flat_map].
  destruct (is_named names c) eqn:Nc; [exact IHrest|].
  cbn [flat_map]. rewrite flat_map_app. cbn [flat_map].
  rewrite IHrest, Hc, own_string_decompose. reflexivity.
Qed.

Lemma decompose_twice (names : list string) (n : node) :
  decompose_all names (decompose_all names n) = decompose_all names n.
Proof. apply decompose_nothing, decompose_removes. Qed.

Lemma descendants_trans (n : node) :
  forall d x, List.In d (descendants n) -> List.In x (descendants d) ->
              List.In x (descendants n).
Proof.
  induction n as [s|s|name attrs contents IH] using node_induction;
    [intros d x []|intros d x []|].
  intros d x. rewrite descendants_tag, !in_flat_map.
  intros (c & Ic & Id) Ix. exists c. split; [exact Ic|].
  right. destruct Id as [<-|Id]; [exact Ix|].
  rewrite Forall_forall in IH. exact (IH c Ic d x Id Ix).
Qed.

Lemma strings_of_descendant (n d : node) :
  List.In d (descendants n) -> incl (strings_of d) (strings_of n).
Proof.
  intros Id s. unfold strings_of. rewrite !in_flat_map.
  intros (x & Ix & Is). exists x. split; [|exact Is].
  exact (descendants_trans n d x Id Ix).
Qed.

(** An area is the page or one of its elements. *)
Lemma content_area_of_page (soup area : node) :
  List.In area (content_areas soup) ->
  area = soup \/ List.In area (descendants soup).
Proof.
  unfold content_areas.
  destruct (find_all _ _ _ soup) as [|a l] eqn:F; cbn [is_nil].
  - destruct (body soup) as [b|] eqn:B.
    + intros [<-|[]]. right. unfold body in B.
      destruct (filter (is_named ["body"]) (descendants soup)) as [|x l'] eqn:Fb;
        [discriminate|].
      injection B as <-.
      assert (I : List.In x (filter (is_named ["body"]) (descendants soup)))
        by (rewrite Fb; left; reflexivity).
      apply filter_In in I as [I _]. exact I.
    + intros [<-|[]]. left. reflexivity.
  - rewrite <- F. unfold find_all. intros I.
    apply filter_In in I as [I _]. right. exact I.
Qed.

Lemma content_area_strings (soup area : node) :
  List.In area (content_areas soup) -> incl (strings_of area) (strings_of soup).
Proof.
  intros I. apply content_area_of_page in I as [->|I].
  - apply incl_refl.
  - apply strings_of_descendant, I.
Qed.

(** X1: Both extractions take their text from the page without its script
    and style elements.  The flat text is made of the strings outside
    these elements, joined, cut into chunks and joined by blanks; the text
    of the content areas is made of areas of the page without these
    elements, so every string of an area is a string outside them.
    Neither result changes when the parser gives a page that differs
    inside script and style elements only, and on a page with a script
    and a style element around one paragraph both give the paragraph. *)
Theorem scripts_and_styles_removed (BeautifulSoup : string -> node)
        (html_content : string) :
  let page := BeautifulSoup html_content in
  let soup := decompose_all ["script"; "style"] page in
  extract_content_from_html BeautifulSoup html_content
  = join " " (chunks_of (join "" (visible_strings ["script"; "style"] page)))
  /\ extract_mdx_like_content_from_html BeautifulSoup html_content
     = join nl (chunks_of
                  (fold_left (fun acc area => acc +:+ get_text nl area +:+ nl)
                             (content_areas soup) ""))
  /\ (forall area : node,
        List.In area (content_areas soup) ->
        get_text nl area = join nl (strings_of area)
        /\ incl (strings_of area) (visible_strings ["script"; "style"] page))
  /\ (forall BeautifulSoup' : string -> node,
        decompose_all ["script"; "style"] (BeautifulSoup' html_content) = soup ->
        extract_content_from_html BeautifulSoup' html_content
        = extract_content_from_html BeautifulSoup html_content
        /\ extract_mdx_like_content_from_html BeautifulSoup' html_content
           = extract_mdx_like_content_from_html BeautifulSoup html_content)
  /\ extract_content_from_html
       (fun html => decompose_all ["script"; "style"] (BeautifulSoup html))
       html_content
     = extract_content_from_html BeautifulSoup html_content
  /\ extract_mdx_like_content_from_html
       (fun html => decompose_all ["script"; "style"] (BeautifulSoup html))
       html_content
     = extract_mdx_like_content_from_html BeautifulSoup html_content
  /\ Forall (fun d => is_named ["script"; "style"] d = false) (descendants soup)
  /\ incl (visible_strings ["script"; "style"] page) (strings_of page)
  /\ (forallb (fun d => negb (is_named ["script"; "style"] d))
              (descendants page) = true ->
      visible_strings ["script"; "style"] page = strings_of page)
  /\ extract_content_from_html (fun _ => scripted_page) "" = "Visible"
  /\ extract_mdx_like_content_from_html (fun _ => scripted_page) "" = "Visible".
Proof.
  cbv zeta.
  split; [|split; [|split; [|split; [|split; [|split; [|split;
    [|split; [|split; [|split]]]]]]]]].
  - unfold extract_content_from_html, get_text.
    rewrite <- decompose_visible. reflexivity.
  - reflexivity.
  - intros area I. split; [reflexivity|].
    rewrite <- decompose_visible. apply content_area_strings, I.
  - intros BeautifulSoup' E.
    unfold extract_content_from_html, extract_mdx_like_content_from_html.
    rewrite E. split; reflexivity.
  - unfold extract_content_from_html. rewrite decompose_twice. reflexivity.
  - unfold extract_mdx_like_content_from_html. rewrite decompose_twice.
    reflexivity.
  - apply Forall_forall. apply decompose_removes.
  - rewrite <- decompose_visible. intros s. apply decompose_strings.
  - intros H. rewrite <- decompose_visible. f_equal.
    apply decompose_nothing. intros d I.
    rewrite forallb_forall in H. apply negb_true_iff, H, I.
  - vm_compute; reflexivity.
  - vm_compute; reflexivity.
Qed.

(** *** What the Validator prints *)

Ltac other_line :=
  match goal with
  | H : _ = _ |- _ =>
      solve [unfold missing_h1_line, missing_summary_line, missing_h2_line in H;
             rewrite ?append_cons in H; discriminate H]
  end.

Ltac absent_line I :=
  cbn [List.In] in I;
  repeat (destruct I as [I|I]; [try other_line|]); try destruct I.

(** X13: The Validator prints six lines about the file; for an invalid file it
    goes on with a header and one line for each requirement that failed,
    and at least one such line follows: no file is called invalid without a
    reason. *)
Theorem validator_report (w : world) (file_path data : string) :
  files w !! file_path = Some data ->
  let r := check_lines (file_lines data) in
  exists (w' : world) (printed : list string),
    validate_llms_txt file_path w = (Ok (valid r, r), w')
    /\ stdout w' = stdout w ++ printed
    /\ firstn 1 printed = ["llmstxt.org Specification Validation:"]
    /\ (if valid r then List.length printed = 6
        else 8 <= List.length printed <= 10
             /\ nth 6 printed "" = nl +:+ "Validation errors:")
    /\ (List.In missing_h1_line printed <-> h1_found r = false)
    /\ (List.In missing_summary_line printed <-> blockquote_found r = false)
    /\ (List.In missing_h2_line printed <-> h2_count r = 0).
Proof.
  intros H. cbv zeta. unfold validate_llms_txt, bind, read_file. rewrite H.
  fold (file_lines data). unfold check_lines.
  generalize (existsb (startswith "# ") (file_lines data)) as h1.
  generalize (existsb (startswith "> ") (file_lines data)) as bq.
  generalize (existsb has_link_chars (file_lines data)) as lk.
  generalize (List.length (filter (startswith "## ") (file_lines data))) as n.
  intros n lk bq h1. unfold report, bind, print, ret.
  cbn [h1_found blockquote_found h2_count links_found valid files stdout].
  destruct h1, bq, n as [|m];
    cbn [andb negb Nat.leb Nat.ltb files stdout];
    (do 2 eexists; split; [reflexivity|];
     split; [cbn [stdout]; rewrite <- !app_assoc; cbn [app]; reflexivity|];
     split; [reflexivity|];
     split; [cbn [List.length nth];
             first [reflexivity|split; [lia|reflexivity]]|];
     repeat split;
     try (intros I; absent_line I; fail);
     try discriminate; try reflexivity;
     try (intros _; cbn [List.In]; tauto)).
Qed.

Lemma validator_report_witness :
  exists (w' : world) (printed : list string),
    validate_llms_txt "llms.txt" no_summary_world
    = (Ok (false, check_lines (file_lines no_summary_file)), w')
    /\ stdout w' = printed
    /\ List.In missing_summary_line printed.
Proof.
  destruct (validator_report no_summary_world "llms.txt" no_summary_file
              eq_refl) as (w' & printed & Hv & Hs & _ & _ & _ & Hb & _).
  exists w', printed. split; [exact Hv|]. split; [exact Hs|].
  apply Hb. reflexivity.
Defined.

(** *** Trimming and cutting keep a text tidy *)

Lemma all_chars_lstrip (P : ascii -> bool) (s : string) :
  all_chars P s = true -> all_chars P (lstrip s) = true.
Proof.
  induction s as [|c s IH]; [reflexivity|]. cbn [all_chars lstrip].
  intros H. destruct (is_space c); [|exact H].
  apply andb_true_iff in H as [_ H]. exact (IH H).
Qed.

Lemma all_chars_rstrip (P : ascii -> bool) (s : string) :
  all_chars P s = true -> all_chars P (rstrip s) = true.
Proof.
  induction s as [|c s IH]; [reflexivity|]. cbn [all_chars rstrip].
  rewrite andb_true_iff. intros [Hc Hs]. specialize (IH Hs).
  destruct (rstrip s); [destruct (is_space c)|]; cbn [all_chars] in *;
    rewrite ?Hc, ?IH; reflexivity.
Qed.

Lemma all_chars_strip (P : ascii -> bool) (s : string) :
  all_chars P s = true -> all_chars P (strip s) = true.
Proof. intros H. apply all_chars_rstrip, all_chars_lstrip, H. Qed.

Lemma Forall_cons_head (Q : string -> Prop) (x : ascii) (l : list string) :
  Q (String x "") ->
  (forall h, Q h -> Q (String x h)) ->
  Forall Q l -> Forall Q (cons_head x l).
Proof.
  intros Q1 Qc F. destruct F as [|h l Hh F]; cbn [cons_head];
    constructor; auto.
Qed.

(** The pieces [split_two_spaces] cuts keep what holds of every character
    of the text. *)
Lemma split_two_spaces_chars (P : ascii -> bool) (n : nat) :
  forall s, String.length s <= n -> all_chars P s = true ->
            Forall (fun p => all_chars P p = true) (split_two_spaces s).
Proof.
  induction n as [|n IH]; intros s L H.
  - destruct s; [repeat constructor|cbn in L; lia].
  - destruct s as [|x s]; [repeat constructor|].
    cbn [all_chars] in H. apply andb_true_iff in H as [Hx Hs].
    cbn [String.length] in L. cbn [split_two_spaces].
    destruct s as [|y s].
    + repeat constructor. cbn [all_chars]. rewrite Hx. reflexivity.
    + destruct (Ascii.eqb x " " && Ascii.eqb y " ").
      * constructor; [reflexivity|]. apply IH.
        -- cbn [String.length] in L. lia.
        -- cbn [all_chars] in Hs. apply andb_true_iff in Hs as [_ Hs].
           exact Hs.
      * apply Forall_cons_head.
        -- cbn [all_chars]. rewrite Hx. reflexivity.
        -- intros h Hh. cbn [all_chars]. rewrite Hx, Hh. reflexivity.
        -- apply IH; [lia|exact Hs].
Qed.

(** No line of [splitlines] holds a line break. *)
Lemma splitlines_no_linebreak (n : nat) :
  forall s, String.length s <= n ->
            Forall (fun l => no_linebreak l = true) (splitlines s).
Proof.
  unfold no_linebreak. induction n as [|n IH]; intros s L.
  - destruct s; [constructor|cbn in L; lia].
  - destruct s as [|x s]; [constructor|].
    cbn [String.length] in L. cbn [splitlines].
    destruct (is_linebreak x) eqn:B.
    + destruct s as [|y s]; [repeat constructor|].
      destruct (Ascii.eqb x CR && Ascii.eqb y LF);
        (constructor; [reflexivity|]); apply IH; cbn [String.length] in *; lia.
    + apply Forall_cons_head.
      * cbn [all_chars]. rewrite B. reflexivity.
      * intros h Hh. cbn [all_chars]. rewrite B, Hh. reflexivity.
      * apply IH. lia.
Qed.

Lemma lstrip_suffix (s : string) : exists pre, s = pre +:+ lstrip s.
Proof.
  induction s as [|c s [pre IH]]; [exists ""; reflexivity|]. cbn [lstrip].
  destruct (is_space c); [|exists ""; reflexivity].
  exists (String c pre). rewrite append_cons. congruence.
Qed.

Lemma rstrip_prefix (s : string) : exists post, s = rstrip s +:+ post.
Proof.
  induction s as [|c s [post IH]]; [exists ""; reflexivity|]. cbn [rstrip].
  destruct (rstrip s) as [|d r] eqn:E.
  - destruct (is_space c).
    + exists (String c s). reflexivity.
    + exists post. rewrite append_cons. rewrite append_empty_l in *.
      congruence.
  - exists post. rewrite append_cons. congruence.
Qed.

(** What a trimmed text contains, the text contains. *)
Lemma contains_strip (needle s : string) :
  contains needle s = false -> contains needle (strip s) = false.
Proof.
  intros H. apply not_true_is_false. intros C. apply contains_iff in C
    as (a & b & E).
  assert (T : contains needle s = true); [|congruence].
  apply contains_iff. unfold strip in E.
  destruct (lstrip_suffix s) as [pre Hp].
  destruct (rstrip_prefix (lstrip s)) as [post Hq].
  exists (pre +:+ a), (b +:+ post).
  rewrite Hp, Hq, E, !append_assoc'. reflexivity.
Qed.

Lemma cons_head_nonempty (x : ascii) (l : list string) : cons_head x l <> [].
Proof. destruct l; discriminate. Qed.

Lemma split_two_spaces_nonempty (s : string) : split_two_spaces s <> [].
Proof.
  destruct s as [|x [|y s]]; cbn [split_two_spaces]; try discriminate.
  destruct (_ && _); [discriminate|apply cons_head_nonempty].
Qed.

(** The pieces [split_two_spaces] cuts hold no two blanks in a row; a piece
    starts with a blank only where the text starts with one single
    blank. *)
Lemma split_two_spaces_pieces (n : nat) :
  forall s, String.length s <= n ->
    Forall (fun p => contains "  " p = false) (split_two_spaces s)
    /\ (startswith " " (hd "" (split_two_spaces s)) = true ->
        startswith " " s = true /\ startswith "  " s = false).
Proof.
  induction n as [|n IH]; intros s L.
  - destruct s; [|cbn in L; lia]. split; [repeat constructor|discriminate].
  - destruct s as [|x s]; [split; [repeat constructor|discriminate]|].
    cbn [String.length] in L. cbn [split_two_spaces].
    destruct s as [|y s].
    + split.
      * repeat constructor. cbn. rewrite andb_false_r. reflexivity.
      * cbn. rewrite !andb_true_r, andb_false_r. auto.
    + destruct (Ascii.eqb x " " && Ascii.eqb y " ") eqn:D.
      * destruct (IH s ltac:(cbn [String.length] in L; lia)) as [F _].
        split; [constructor; [reflexivity|exact F]|discriminate].
      * destruct (IH (String y s) ltac:(lia)) as [F Hd].
        destruct (split_two_spaces (String y s)) as [|h rest] eqn:E.
        { exfalso. exact (split_two_spaces_nonempty _ E). }
        cbn [cons_head hd] in *. apply Forall_cons_iff in F as [Fh Fr].
        assert (S1 : startswith "  " (String x h) = false).
        { change (startswith "  " (String x h))
            with (Ascii.eqb " " x && startswith " " h).
          destruct (Ascii.eqb " " x) eqn:Ex; [|reflexivity].
          cbn [andb]. destruct (startswith " " h) eqn:Sh; [|reflexivity].
          destruct (Hd eq_refl) as [Hy _]. cbn [startswith] in Hy.
          rewrite andb_true_r in Hy. rewrite Ascii.eqb_sym in Ex, Hy.
          rewrite Ex, Hy in D. discriminate. }
        split.
        -- constructor; [|exact Fr]. cbn [contains]. rewrite S1, Fh.
           reflexivity.
        -- cbn [startswith]. rewrite !andb_true_r. intros Ex.
           split; [exact Ex|]. rewrite Ex. cbn [andb].
           rewrite Ascii.eqb_sym in Ex. rewrite Ex in D. cbn [andb] in D.
           rewrite Ascii.eqb_sym. rewrite D. reflexivity.
Qed.

(** Every chunk is tidy. *)
Lemma chunks_tidy (text : string) : Forall tidy (chunks_of text).
Proof.
  unfold chunks_of. apply Forall_forall. intros c I.
  apply filter_In in I as [I N]. apply in_flat_map in I as (line & Hl & I).
  apply in_map_iff in I as (p & <- & Hp).
  apply in_map_iff in Hl as (l0 & <- & Hl0).
  pose proof (splitlines_no_linebreak _ text (Nat.le_refl _)) as B.
  rewrite Forall_forall in B. specialize (B l0 Hl0).
  pose proof (split_two_spaces_chars (fun c => negb (is_linebreak c)) _
                (strip l0) (Nat.le_refl _) (all_chars_strip _ _ B)) as B2.
  rewrite Forall_forall in B2. specialize (B2 p Hp).
  destruct (split_two_spaces_pieces _ (strip l0) (Nat.le_refl _)) as [D _].
  rewrite Forall_forall in D. specialize (D p Hp).
  split; [destruct (strip p); [discriminate|discriminate]|].
  split; [apply strip_idempotent|].
  split; [apply contains_strip, D|apply all_chars_strip, B2].
Qed.

Lemma split_char_no_linebreak (c : string) :
  no_linebreak c = true -> split_char LF c = [c].
Proof.
  unfold no_linebreak. induction c as [|x c IH]; [reflexivity|].
  cbn [all_chars split_char]. rewrite andb_true_iff, negb_true_iff.
  intros [B H]. destruct (Ascii.eqb_spec x LF) as [->|_]; [discriminate B|].
  rewrite (IH H). reflexivity.
Qed.

Lemma split_char_join (l : list string) :
  Forall (fun c => no_linebreak c = true) l -> l <> [] ->
  split_char LF (join nl l) = l.
Proof.
  intros F. induction F as [|c rest Hc F IH]; [congruence|]. intros _.
  destruct rest as [|c2 rest].
  - apply split_char_no_linebreak, Hc.
  - rewrite join_cons by discriminate.
    change (nl +:+ join nl (c2 :: rest)) with (String LF (join nl (c2 :: rest))).
    rewrite split_char_app, (split_char_no_linebreak c Hc), IH by discriminate.
    reflexivity.
Qed.

(** X3: The text [extract_mdx_like_content_from_html] returns is empty or made
    of tidy lines: no line is empty, starts or ends with a blank, holds two
    blanks in a row or a line break other than the line feeds between the
    lines. *)
Theorem mdx_text_is_tidy (BeautifulSoup : string -> node)
        (html_content : string) :
  let text := extract_mdx_like_content_from_html BeautifulSoup html_content in
  text = "" \/ Forall tidy (split_char LF text).
Proof.
  cbv zeta. unfold extract_mdx_like_content_from_html.
  set (extracted := fold_left _ _ _).
  change (join nl (filter nonempty
            (flat_map (fun line => map strip (split_two_spaces line))
                      (map strip (splitlines extracted)))))
    with (join nl (chunks_of extracted)).
  pose proof (chunks_tidy extracted) as T.
  destruct (chunks_of extracted) as [|c rest] eqn:E; [left; reflexivity|].
  right. rewrite split_char_join.
  - exact T.
  - apply Forall_forall. intros x I. rewrite Forall_forall in T.
    apply (T x I).
  - discriminate.
Qed.

Lemma contains_cons (needle : string) (x : ascii) (s : string) :
  contains needle (String x s)
  = startswith needle (String x s) || contains needle s.
Proof. reflexivity. Qed.

Lemma startswith_two_blanks (x y : ascii) (s : string) :
  startswith "  " (String x (String y s)) = Ascii.eqb " " x && Ascii.eqb " " y.
Proof. cbn [startswith]. rewrite andb_true_r. reflexivity. Qed.

Lemma rstrip_single (x : ascii) :
  rstrip (String x "") = String x "" -> is_space x = false.
Proof. cbn [rstrip]. destruct (is_space x); [discriminate|reflexivity]. Qed.

Lemma rstrip_tail (x : ascii) (a : string) :
  a <> "" -> rstrip (String x a) = String x a -> rstrip a = a.
Proof.
  intros N. cbn [rstrip]. destruct (rstrip a) as [|d r].
  - destruct (is_space x); [discriminate|]. intros H. injection H as <-.
    congruence.
  - intros H. injection H as <-. reflexivity.
Qed.

Lemma rstrip_app (a b : string) :
  rstrip b <> "" -> rstrip (a +:+ b) = a +:+ rstrip b.
Proof.
  intros N. induction a as [|x a IH]; [reflexivity|].
  rewrite !append_cons. cbn [rstrip]. rewrite IH.
  destruct (a +:+ rstrip b) eqn:E; [|reflexivity].
  destruct a; [rewrite append_empty_l in E; congruence|discriminate].
Qed.

Lemma blank_is_space (x : ascii) : is_space x = false -> Ascii.eqb " " x = false.
Proof.
  intros H. destruct (Ascii.eqb_spec " " x) as [<-|]; [discriminate H|reflexivity].
Qed.

(** Two texts without double blanks, the first not ending and the second
    not starting with a blank, joined by one blank, have no double
    blank. *)
Lemma contains_two_blanks_app (b : string) :
  contains "  " b = false -> clean_head b -> b <> "" ->
  forall a, contains "  " a = false -> rstrip a = a -> a <> "" ->
            contains "  " (a +:+ " " +:+ b) = false.
Proof.
  intros Cb Hb Nb. induction a as [|x a IH]; [congruence|]. intros Ca Ra _.
  destruct a as [|y a].
  - apply rstrip_single, blank_is_space in Ra.
    destruct b as [|z b]; [congruence|]. cbn [clean_head] in Hb.
    apply blank_is_space in Hb.
    change (String x "" +:+ " " +:+ String z b)
      with (String x (String " " (String z b))).
    change (contains "  " (String x (String " " (String z b))))
      with (startswith "  " (String x (String " " (String z b)))
            || (startswith "  " (String " " (String z b))
                || contains "  " (String z b))).
    rewrite !startswith_two_blanks, Ra, Hb, Cb. reflexivity.
  - change (contains "  " (String x (String y a)))
      with (startswith "  " (String x (String y a))
            || contains "  " (String y a)) in Ca.
    apply orb_false_iff in Ca as [S1 C1].
    rewrite startswith_two_blanks in S1.
    assert (Ny : String y a <> "") by discriminate.
    specialize (IH C1 (rstrip_tail x (String y a) Ny Ra) Ny).
    rewrite (append_cons x (String y a)).
    rewrite (contains_cons "  " x).
    rewrite IH, orb_false_r.
    rewrite (append_cons y a). rewrite startswith_two_blanks. exact S1.
Qed.

Lemma tidy_ends (c : string) :
  tidy c -> clean_head c /\ rstrip c = c /\ c <> "".
Proof.
  intros (N & S & _). split; [|split; [|exact N]].
  - rewrite <- S. apply rstrip_clean_head, lstrip_clean_head.
  - rewrite <- S at 1. unfold strip. rewrite rstrip_idempotent. exact S.
Qed.

(** Tidy chunks joined by single blanks make a tidy line. *)
Lemma join_tidy (l : list string) :
  Forall tidy l -> l <> [] -> tidy (join " " l).
Proof.
  intros F. induction F as [|c rest Hc F IH]; [congruence|]. intros _.
  destruct rest as [|c2 rest]; [exact Hc|].
  specialize (IH ltac:(discriminate)).
  rewrite join_cons by discriminate.
  set (j := join " " (c2 :: rest)) in *.
  destruct (tidy_ends _ Hc) as (Hh & Hr & Hn).
  destruct (tidy_ends _ IH) as (Jh & Jr & Jn).
  destruct Hc as (_ & _ & Cc & Bc). destruct IH as (_ & _ & Cj & Bj).
  assert (N : c +:+ " " +:+ j <> "")
    by (destruct c; [congruence|rewrite append_cons; discriminate]).
  assert (H1 : clean_head (c +:+ " " +:+ j))
    by (destruct c; [congruence|exact Hh]).
  assert (R : rstrip (c +:+ " " +:+ j) = c +:+ " " +:+ j).
  { rewrite <- append_assoc'. rewrite rstrip_app by (rewrite Jr; exact Jn).
    rewrite Jr. reflexivity. }
  split; [exact N|]. split; [|split].
  - unfold strip. rewrite (lstrip_id _ H1). exact R.
  - apply contains_two_blanks_app; assumption.
  - unfold no_linebreak in *. rewrite !all_chars_app, Bc, Bj. reflexivity.
Qed.

(** X2: The text [extract_content_from_html] returns is one tidy line: no line
    break, no blank at either end, no two blanks in a row; or it is
    empty. *)
Theorem flat_text_is_tidy (BeautifulSoup : string -> node)
        (html_content : string) :
  let text := extract_content_from_html BeautifulSoup html_content in
  text = "" \/ tidy text.
Proof.
  cbv zeta. unfold extract_content_from_html.
  set (page_text := get_text "" _).
  change (join " " (filter nonempty
            (flat_map (fun line => map strip (split_two_spaces line))
                      (map strip (splitlines page_text)))))
    with (join " " (chunks_of page_text)).
  pose proof (chunks_tidy page_text) as T.
  destruct (chunks_of page_text) as [|c rest] eqn:E; [left; reflexivity|].
  right. apply join_tidy; [exact T|discriminate].
Qed.

(** *** A whole run *)

Section WholeRun.

Variable requests_get : string -> response + exn.
Variable BeautifulSoup : string -> node.
Variable open_for_writing : string -> option exn.


End WholeRun.


Lemma script_patterns_advance_witness :
  List.In (false, link_re) script_patterns
  /\ match_at false link_re false "[a](b) c" = Some (6, [(1, "a")])
  /\ 0 < 6.
Proof.
  split; [vm_compute; tauto|]. split; [vm_compute; reflexivity|].
  apply (script_patterns_advance false link_re false "[a](b) c" 6 [(1, "a")]).
  - vm_compute. tauto.
  - vm_compute. reflexivity.
Defined.
